(** * A shallow embedding of [acbfxml.py]: the ACBF metadata tag adapter.

    The adapter converts between an ElementTree document of the ACBF
    schema and comicapi's [GenericMetadata] record.  This file models

    - the ElementTree data ([ET.Element]: tag, attribute dict, text and an
      ordered child list) and the ElementPath lookups the code uses
      ([find], [findall] on slash paths and on [.//name]);
    - [_convert_metadata_to_xml] (the merge), [_convert_xml_to_metadata]
      (the extraction), [_validate_bytes], [has_tags], [read_tags] and
      [write_tags];
    - the comicapi collaborators the file imports (synonym tables,
      [utils.xlate], [utils.split], [utils.parse_date_str], [parse_url],
      [GenericMetadata.add_credit], [utils.get_page_name_list]) and the
      Python builtin [int], which are parameters of the development.

    The merge mutates one tree in place through references ([book_info],
    [body_node], the page elements kept in [page_dict]).  The model keeps a
    reference as the position of the element in the tree (the list of child
    indices from the root); the code never removes a child of the root or
    of a [meta-data] element, so such positions stay valid through the run. *)

From Stdlib Require Import String Ascii List ZArith Bool Lia Sorted Permutation.
Import ListNotations.
Open Scope string_scope.
Open Scope nat_scope.

(** ** Python strings *)

Module PyStr.

(** The ASCII characters [str.isspace] accepts, as [str.split()] and
    [str.strip()] use them: space, [\t\n\v\f\r] and the separators
    [\x1c]-[\x1f]. *)
Definition is_space (c : ascii) : bool :=
  match c with
  | " "%char | "009"%char | "010"%char | "011"%char | "012"%char | "013"%char
  | "028"%char | "029"%char | "030"%char | "031"%char => true
  | _ => false
  end.

(** [str.casefold] on ASCII text. *)
Definition lower_char (c : ascii) : ascii :=
  let n := nat_of_ascii c in
  if (65 <=? n) && (n <=? 90) then ascii_of_nat (n + 32) else c.

Fixpoint casefold (s : string) : string :=
  match s with
  | EmptyString => EmptyString
  | String c s' => String (lower_char c) (casefold s')
  end.

(** [s.startswith(p)] *)
Definition startswith (s p : string) : bool := String.prefix p s.

(** [s.endswith(p)] *)
Definition endswith (s p : string) : bool :=
  let n := String.length s in
  let m := String.length p in
  (m <=? n) && String.eqb (substring (n - m) m s) p.

(** [s.replace(a, b)] for single characters. *)
Fixpoint replace_char (a b : ascii) (s : string) : string :=
  match s with
  | EmptyString => EmptyString
  | String c s' =>
      String (if Ascii.eqb c a then b else c) (replace_char a b s')
  end.

(** [s.split(sep)] for a non-empty separator: cut at each occurrence,
    scanning left to right. *)
Fixpoint split_sep_aux (sep : string) (fuel : nat) (s cur : string)
  : list string :=
  match fuel with
  | O => [cur ++ s]
  | S fuel' =>
      match s with
      | EmptyString => [cur]
      | String c s' =>
          if String.prefix sep s
          then cur :: split_sep_aux sep fuel'
                        (substring (String.length sep)
                           (String.length s - String.length sep) s) ""
          else split_sep_aux sep fuel' s' (cur ++ String c EmptyString)
      end
  end.

Definition split_sep (s sep : string) : list string :=
  split_sep_aux sep (S (String.length s)) s "".

(** [s.split()] with no separator: runs of whitespace separate words,
    empty words are dropped. *)
Fixpoint split_ws_aux (s cur : string) : list string :=
  match s with
  | EmptyString => if String.eqb cur "" then [] else [cur]
  | String c s' =>
      if is_space c
      then (if String.eqb cur "" then [] else [cur]) ++ split_ws_aux s' ""
      else split_ws_aux s' (cur ++ String c EmptyString)
  end.

Definition split_ws (s : string) : list string := split_ws_aux s "".

(** [not s.strip()]: the string is empty or only whitespace. *)
Fixpoint all_space (s : string) : bool :=
  match s with
  | EmptyString => true
  | String c s' => is_space c && all_space s'
  end.

(** [sep.join(l)] *)
Fixpoint join (sep : string) (l : list string) : string :=
  match l with
  | [] => ""
  | [x] => x
  | x :: l' => x ++ sep ++ join sep l'
  end.

Definition digit (n : nat) : ascii := ascii_of_nat (48 + n).

Fixpoint digits_aux (fuel : nat) (n : nat) (acc : string) : string :=
  match fuel with
  | O => acc
  | S fuel' =>
      let acc' := String (digit (n mod 10)) acc in
      if n <? 10 then acc' else digits_aux fuel' (n / 10) acc'
  end.

(** [str(n)] for a natural number. *)
Definition nat_str (n : nat) : string := digits_aux (S n) n "".

(** [str(z)] for a Python int. *)
Definition z_str (z : Z) : string :=
  if (z <? 0)%Z then "-" ++ nat_str (Z.to_nat (- z)) else nat_str (Z.to_nat z).

Fixpoint zeros (n : nat) : string :=
  match n with O => "" | S n' => String "0" (zeros n') end.

(** [f'{z:0w}']: zero padding to width [w]; the sign counts in the width. *)
Definition z_pad (w : nat) (z : Z) : string :=
  if (z <? 0)%Z
  then let d := nat_str (Z.to_nat (- z)) in
       "-" ++ zeros (w - 1 - String.length d) ++ d
  else let d := nat_str (Z.to_nat z) in
       zeros (w - String.length d) ++ d.

(** Python truthiness of an optional string. *)
Definition truthy (o : option string) : bool :=
  match o with Some s => negb (String.eqb s "") | None => false end.

(** [a == b] between two [str | None]. *)
Definition opt_eqb (a b : option string) : bool :=
  match a, b with
  | Some x, Some y => String.eqb x y
  | None, None => true
  | _, _ => false
  end.

Fixpoint mem (x : string) (l : list string) : bool :=
  match l with [] => false | y :: l' => String.eqb x y || mem x l' end.

(** [set.add] on a set kept as a duplicate-free list (the list order is
    the set's iteration order). *)
Definition set_add (x : string) (l : list string) : list string :=
  if mem x l then l else l ++ [x].

(** [s[n:]] *)
Definition drop (n : nat) (s : string) : string :=
  substring n (String.length s - n) s.

End PyStr.
Import PyStr.

(** ** The error monad: a Python call returns or raises *)

Inductive res (A : Type) : Type :=
| Ok (a : A)
| Raise (msg : string).
Arguments Ok {A} a.
Arguments Raise {A} msg.

Definition bind {A B} (m : res A) (f : A -> res B) : res B :=
  match m with Ok a => f a | Raise e => Raise e end.

Notation "'let*' x := m 'in' k" := (bind m (fun x => k))
  (at level 200, x name, m at level 100, k at level 200).
Notation "'let*' ' p := m 'in' k" := (bind m (fun x => match x with p => k end))
  (at level 200, p pattern, m at level 100, k at level 200).

(** [for x in l: acc = f(acc, x)] with a body that may raise. *)
Fixpoint fold_res {A B} (f : A -> B -> res A) (l : list B) (a : A) : res A :=
  match l with
  | [] => Ok a
  | x :: l' => let* a' := f a x in fold_res f l' a'
  end.

(** ** ElementTree *)

Module ET.
Local Set Warnings "-register-all".

(** [ET.Element]: tag, attribute dict (insertion ordered), text and
    children.  The tail is not modelled: the code never reads it. *)
Inductive element : Type :=
| Elem (tag : string) (attrib : list (string * string))
       (text : option string) (kids : list element).

Definition tag (e : element) : string := let 'Elem t _ _ _ := e in t.
Definition attrib (e : element) := let 'Elem _ a _ _ := e in a.
Definition text (e : element) : option string := let 'Elem _ _ x _ := e in x.
Definition kids (e : element) : list element := let 'Elem _ _ _ k := e in k.

Definition set_tag (t : string) (e : element) : element :=
  let 'Elem _ a x k := e in Elem t a x k.
Definition set_attrib (a : list (string * string)) (e : element) : element :=
  let 'Elem t _ x k := e in Elem t a x k.
Definition set_text (x : option string) (e : element) : element :=
  let 'Elem t a _ k := e in Elem t a x k.
Definition set_kids (k : list element) (e : element) : element :=
  let 'Elem t a x _ := e in Elem t a x k.

(** [e.get(k)] *)
Fixpoint dict_get (k : string) (a : list (string * string)) : option string :=
  match a with
  | [] => None
  | (k', v) :: a' => if String.eqb k k' then Some v else dict_get k a'
  end.

(** [d[k] = v]: an existing key keeps its place. *)
Fixpoint dict_set (k v : string) (a : list (string * string))
  : list (string * string) :=
  match a with
  | [] => [(k, v)]
  | (k', v') :: a' =>
      if String.eqb k k' then (k, v) :: a' else (k', v') :: dict_set k v a'
  end.

Definition get (k : string) (e : element) : option string := dict_get k (attrib e).

(** [e.attrib[k] = v] *)
Definition set (k v : string) (e : element) : element :=
  set_attrib (dict_set k v (attrib e)) e.

(** [ET.SubElement(e, t)] / [e.append(c)] *)
Definition append (c : element) (e : element) : element :=
  set_kids (kids e ++ [c])%list e.

(** [e.clear()]: children, attributes and text are reset. *)
Definition clear (e : element) : element :=
  let 'Elem t _ _ _ := e in Elem t [] None [].

(** [len(e) > 0], which is also the truth value of an element. *)
Definition has_kids (e : element) : bool :=
  match kids e with [] => false | _ => true end.

(** *** Positions: a reference to an element is its path of child indices *)

Definition pos := list nat.

Fixpoint get_at (e : element) (p : pos) : option element :=
  match p with
  | [] => Some e
  | i :: p' =>
      match nth_error (kids e) i with
      | Some c => get_at c p'
      | None => None
      end
  end.

Fixpoint upd_nth {A} (i : nat) (f : A -> A) (l : list A) : list A :=
  match l, i with
  | [], _ => []
  | x :: l', O => f x :: l'
  | x :: l', S i' => x :: upd_nth i' f l'
  end.

(** Mutating the element at [p] in place. *)
Fixpoint upd_at (p : pos) (f : element -> element) (e : element) : element :=
  match p with
  | [] => f e
  | i :: p' => set_kids (upd_nth i (upd_at p' f) (kids e)) e
  end.

Fixpoint indexed {A} (i : nat) (l : list A) : list (nat * A) :=
  match l with [] => [] | x :: l' => (i, x) :: indexed (S i) l' end.

(** [e.findall('a/b/c')], as positions relative to [e], in the order
    ElementPath yields them. *)
Fixpoint findall (path : list string) (e : element) : list pos :=
  match path with
  | [] => [[]]
  | s :: path' =>
      flat_map (fun '(i, c) =>
                  if String.eqb (tag c) s then map (cons i) (findall path' c)
                  else [])
               (indexed 0 (kids e))
  end.

(** [e.find('a/b/c')]: the first result of [findall]. *)
Definition find (path : list string) (e : element) : option pos :=
  hd_error (findall path e).

(** [e.find('.//x')]: the descendants named [x], in document order. *)
Fixpoint iter_named (x : string) (e : element) : list pos :=
  let fix go (i : nat) (l : list element) : list pos :=
    match l with
    | [] => []
    | c :: l' =>
        (((if String.eqb (tag c) x then [[i]] else [])
           ++ map (cons i) (iter_named x c)) ++ go (S i) l')%list
    end in
  go 0 (kids e).

Definition find_desc (x : string) (e : element) : option element :=
  match iter_named x e with
  | p :: _ => get_at e p
  | [] => None
  end.

(** The elements found by [findall] (a list of references). *)
Definition findall_el (path : list string) (e : element) : list element :=
  flat_map (fun p => match get_at e p with Some c => [c] | None => [] end)
           (findall path e).

Definition find_el (path : list string) (e : element) : option element :=
  match find path e with Some p => get_at e p | None => None end.

Fixpoint spaces (n : nat) : string :=
  match n with O => "" | S n' => "  " ++ spaces n' end.

(** [indentations[n]] of [ET.indent] with its default [space='  ']. *)
Definition indentation (n : nat) : string := String "010"%char (spaces n).

(** *** [ET.indent(root)] on text: an element with children whose text is
    missing or blank gets the indentation of its children.  (Tails are
    not modelled.) *)
Fixpoint indent_at (level : nat) (e : element) : element :=
  let 'Elem t a x k := e in
  match k with
  | [] => e
  | _ =>
      let x' := match x with
                | Some s => if all_space s then Some (indentation (S level)) else x
                | None => Some (indentation (S level))
                end in
      Elem t a x' (map (indent_at (S level)) k)
  end.

Definition indent (root : element) : element := indent_at 0 root.

End ET.

Import ET.

(** ** comicapi's [GenericMetadata] *)

Record page_md := mkPage {
  filename : string;
  display_index : Z;
  archive_index : Z;
  bookmark : string;
  page_type : string }.

Record credit := mkCredit {
  person : string;
  role : string;
  primary : bool;
  credit_language : string }.

(** Sets ([genres], [tags]) are duplicate-free lists; [characters],
    [teams] and [locations] may hold [None] ([set.add(c.text)]).  [volume]
    is kept as its [str()].  A web link is kept as its url. *)
Record metadata := mkMd {
  series : option string;
  issue : option string;
  title : option string;
  volume : option string;
  genres : list string;
  description : option string;
  notes : option string;
  publisher : option string;
  imprint : option string;
  day : option Z;
  month : option Z;
  year : option Z;
  language : option string;
  web_links : list string;
  manga : option string;
  maturity_rating : option string;
  scan_info : option string;
  tags : list string;
  pages : list page_md;
  characters : list (option string);
  teams : list (option string);
  locations : list (option string);
  credits : list credit;
  data_origin : option string;
  issue_id : option string;
  series_id : option string;
  identifier : option string;
  rights : option string;
  is_empty : bool }.

(** [GenericMetadata()]: every field unset, [is_empty = True]. *)
Definition empty_md : metadata :=
  mkMd None None None None [] None None None None None None None None []
       None None None [] [] [] [] [] [] None None None None None true.

Definition with_genres (g : list string) (m : metadata) : metadata :=
  let 'mkMd s i t v _ d n p im dy mo y l w mg mr sc tg pg ch te lo cr o ii si id ri e := m in
  mkMd s i t v g d n p im dy mo y l w mg mr sc tg pg ch te lo cr o ii si id ri e.

Definition with_pages (pg : list page_md) (m : metadata) : metadata :=
  let 'mkMd s i t v g d n p im dy mo y l w mg mr sc tg _ ch te lo cr o ii si id ri e := m in
  mkMd s i t v g d n p im dy mo y l w mg mr sc tg pg ch te lo cr o ii si id ri e.

(** [sorted(pages, key=lambda x: x.display_index)]: a stable sort. *)
Fixpoint insert_page (x : page_md) (l : list page_md) : list page_md :=
  match l with
  | [] => [x]
  | y :: l' =>
      if (display_index x <=? display_index y)%Z then x :: y :: l'
      else y :: insert_page x l'
  end.

Fixpoint sort_pages (l : list page_md) : list page_md :=
  match l with
  | [] => []
  | x :: l' => insert_page x (sort_pages l')
  end.

(** ** The collaborators imported from comicapi, and Python's [int] *)

Record env := mkEnv {
  writer_synonyms : list string;
  penciller_synonyms : list string;
  inker_synonyms : list string;
  colorist_synonyms : list string;
  letterer_synonyms : list string;
  cover_synonyms : list string;
  editor_synonyms : list string;
  translator_synonyms : list string;
  (** [utils.xlate] *)
  xlate : option string -> option string;
  (** [utils.split(s, sep)] *)
  split : option string -> string -> list string;
  (** [utils.parse_date_str] gives (day, month, year) *)
  parse_date_str : option string -> option Z * option Z * option Z;
  (** [parse_url(s).url] *)
  parse_url : option string -> string;
  (** [md.add_credit(person, role, primary, language)] on [md.credits] *)
  add_credit : list credit -> credit -> list credit;
  (** [utils.get_page_name_list] *)
  get_page_name_list : list string -> list string;
  (** [int(s)]; [None] when it raises [ValueError] *)
  py_int : string -> option Z }.

(** ** Tree edits shared by the merge *)

Definition new_element (sub : string) (txt : string)
  (attribs : list (string * string)) : element :=
  Elem sub (fold_left (fun a '(k, v) => dict_set k v a) attribs [])
       (if String.eqb txt "" then None else Some txt) [].

(** [add_element(element, sub_element, text, attribs)] for the element at [p]. *)
Definition add_element (p : pos) (sub : string) (txt : string)
  (attribs : list (string * string)) (root : element) : element :=
  upd_at p (append (new_element sub txt attribs)) root.

Definition kid_count (root : element) (p : pos) : nat :=
  match get_at root p with Some e => length (kids e) | None => 0 end.

(** Removing the child at index [j] of the element at [p]. *)
Fixpoint remove_nth {A} (j : nat) (l : list A) : list A :=
  match l, j with
  | [], _ => []
  | _ :: l', O => l'
  | x :: l', S j' => x :: remove_nth j' l'
  end.

Definition remove_kid (p : pos) (j : nat) (root : element) : element :=
  upd_at p (fun e => set_kids (remove_nth j (kids e)) e) root.

Definition filter_kids (p : pos) (keep : element -> bool) (root : element)
  : element :=
  upd_at p (fun e => set_kids (filter keep (kids e)) e) root.

(** [add_path(path)] *)
Definition add_path (path : list string) (root : element)
  : res (element * pos) :=
  let* root' :=
    fold_res (fun r i =>
      match find (firstn (S i) path) r with
      | Some _ => Ok r
      | None =>
          match i with
          | O => Ok (add_element [] (nth i path "") "" [] r)
          | _ =>
              match find (firstn i path) r with
              | None => Raise "add_path: Failed to find XML path element"
              | Some q => Ok (add_element q (nth i path "") "" [] r)
              end
          end
      end) (seq 0 (length path)) root in
  match find path root' with
  | Some q => Ok (root', q)
  | None => Raise "add_path: Failed to create XML path element"
  end.

(** [get_or_create_element(tag)] *)
Definition get_or_create (path : list string) (root : element)
  : res (element * pos) :=
  match find path root with
  | Some q => Ok (root, q)
  | None => add_path path root
  end.

(** [modify_element(path, value, attribs, clear_attribs)] *)
Definition modify_element (path : list string) (value : string)
  (attribs : list (string * string)) (clear_attribs : bool) (root : element)
  : res element :=
  let* '(root1, ppos) := get_or_create (removelast path) root in
  let edit (e : element) : element :=
    let e1 := if clear_attribs then set_attrib [] e else e in
    fold_left (fun x '(k, v) => set k v x) attribs (set_text (Some value) e1) in
  match find path root1 with
  | Some q => Ok (upd_at q edit root1)
  | None =>
      let n := kid_count root1 ppos in
      let root2 := upd_at ppos (append (Elem (last path "") [] None [])) root1 in
      Ok (upd_at (ppos ++ [n])%list edit root2)
  end.

(** [clear_element(full_ele)] *)
Definition clear_element (path : list string) (root : element) : element :=
  match find (removelast path) root with
  | Some q =>
      filter_kids q (fun c => negb (String.eqb (tag c) (last path ""))) root
  | None => root
  end.

(** ** [_convert_metadata_to_xml]: the merge *)

Module Merge.
Section Merge.
Variable E : env.

Definition ns_url : string := "http://www.acbf.info/xml/acbf/1.2".

(** [ele.tag.split('}')[1]] for a tag starting with ['{']. *)
Definition local_tag (t : string) : res string :=
  if startswith t "{" then
    match split_sep t "}" with
    | _ :: x :: _ => Ok x
    | _ => Raise "IndexError: list index out of range"
    end
  else Ok t.

(** [_remove_acbf_xml_namespaces] *)
Fixpoint remove_ns (e : element) : res element :=
  let 'Elem t a x k := e in
  let fix go (l : list element) : res (list element) :=
    match l with
    | [] => Ok []
    | c :: l' => let* c' := remove_ns c in let* l'' := go l' in Ok (c' :: l'')
    end in
  let* t' := local_tag t in
  let* k' := go k in
  Ok (Elem t' a x k').

(** The root the merge starts from: the parsed existing entry, or a new
    [ACBF] element when [xml] is empty. *)
Definition init_root (xml : option element) : res element :=
  match xml with
  | Some t => let* r := remove_ns t in Ok (set "xmlns" ns_url r)
  | None => Ok (Elem "ACBF" [("xmlns", ns_url)] None [])
  end.

(** [add_credit(person, role, lang)] appends an [author] to [book_info]. *)
Definition author_element (person role : string) (lang : option string)
  : option element :=
  let '(first, middle, last, nick) :=
    match split_ws person with
    | [] => (None, None, None, None)
    | [n] => (None, None, None, Some n)
    | [f; l] => (Some f, None, Some l, None)
    | f :: m :: l :: _ => (Some f, Some m, Some l, None)
    end in
  if negb (truthy first || truthy last || truthy nick) then None
  else
    let a0 := [("activity", role)] in
    let a1 := match lang with Some l => dict_set "lang" l a0 | None => a0 end in
    let sub (t : string) (o : option string) :=
      match o with Some s => [new_element t s []] | None => [] end in
    Some (Elem "author" a1 None
            (sub "first-name" first ++ sub "middle-name" middle
             ++ sub "last-name" last ++ sub "nickname" nick)%list).

(** The [if/elif] chain choosing the ACBF activity of a credit and whether
    the credit's language is passed on. *)
Definition credit_activity (c : credit) : string * option string :=
  let r := casefold (role c) in
  let l := Some (credit_language c) in
  if mem r (writer_synonyms E) then ("Writer", l)
  else if mem r ["adapter"] then ("Adapter", l)
  else if mem r ["artist"] then ("Artist", None)
  else if mem r (penciller_synonyms E) then ("Penciller", None)
  else if mem r (inker_synonyms E) then ("Inker", None)
  else if mem r (colorist_synonyms E) then ("Colorist", None)
  else if mem r ["photographer"; "photo"] then ("Photographer", None)
  else if mem r (letterer_synonyms E) then ("Letterer", l)
  else if mem r (cover_synonyms E) then ("CoverArtist", None)
  else if mem r (editor_synonyms E) then ("Editor", l)
  else if mem r ["assistant editor"] then ("Assistant Editor", l)
  else if mem r (translator_synonyms E) then ("Translator", l)
  else ("Other", l).

Definition bi_path : list string := ["meta-data"; "book-info"].
Definition bi_child (x : string) : list string := (bi_path ++ [x])%list.

(** Comic authors: wipe, then one [author] per credit. *)
Definition step_credits (md : metadata) (bi : pos) (r : element) : element :=
  let r1 := clear_element (bi_child "author") r in
  fold_left (fun r c =>
      let '(act, l) := credit_activity c in
      match author_element (person c) act l with
      | Some a => upd_at bi (append a) r
      | None => r
      end) (credits md) r1.

(** Series, issue and volume. *)
Definition step_series (md : metadata) (bi : pos) (r : element) : res element :=
  if truthy (series md) then
    let seqs := findall (bi_child "sequence") r in
    let* r1 :=
      if (length seqs =? 1)%nat then
        (* [sequence.clear()] empties the Python list of found elements *)
        Ok r
      else
        (* [book_info.remove(seq)] for each found [seq] whose text is the
           issue: a [ValueError] when [seq] is not a child of [book_info] *)
        let hits := filter (fun q => match get_at r q with
                                     | Some s => opt_eqb (text s) (issue md)
                                     | None => false
                                     end) seqs in
        if forallb (fun q => if list_eq_dec Nat.eq_dec (removelast q) bi
                             then true else false) hits
        then Ok (upd_at bi (fun b =>
                   set_kids (filter (fun c =>
                      negb (String.eqb (tag c) "sequence"
                            && opt_eqb (text c) (issue md))) (kids b)) b) r)
        else Raise "ValueError: list.remove(x): x not in list" in
    let e0 := Elem "sequence" [("title", match series md with Some s => s | None => "" end)]
                (if truthy (issue md) then issue md else None) [] in
    let e1 := if truthy (volume md)
              then set "volume" (match volume md with Some v => v | None => "" end) e0
              else e0 in
    Ok (upd_at bi (append e1) r1)
  else Ok r.

(** Title: clear the untagged and [en] titles, append the new one. *)
Definition step_title (md : metadata) (bi : pos) (r : element) : element :=
  match title md with
  | Some t =>
      if truthy (title md) then
        let r1 := fold_left (fun r q =>
              upd_at q (fun e =>
                 match get "lang" e with
                 | None => clear e
                 | Some l => if String.eqb l "en" then clear e else e
                 end) r) (findall (bi_child "book-title") r) r in
        let e := Elem "book-title"
                   (match language md with
                    | Some l => if truthy (language md) then [("lang", l)] else []
                    | None => [] end) (Some t) [] in
        upd_at bi (append e) r1
      else r
  | None => r
  end.

Definition allow_genres : list string :=
  ["other"; "adult"; "adventure"; "alternative"; "artbook"; "biography";
   "caricature"; "children"; "computer"; "crime"; "education"; "fantasy";
   "history"; "horror"; "humor"; "manga"; "military"; "mystery";
   "non-fiction"; "politics"; "real_life"; "religion"; "romance";
   "science_fiction"; "sports"; "superhero"; "western"].

(** [g.casefold().replace(' ', '_')], then ['historical'] to ['history']. *)
Definition genre_key (g : string) : string :=
  let g' := replace_char " " "_" (casefold g) in
  if String.eqb g' "historical" then "history" else g'.

(** The [match] value kept from the first old genre with the same text. *)
Definition old_match (cur : list element) (g : string) : res Z :=
  match List.find (fun cg => opt_eqb (text cg) (Some g)) cur with
  | Some cg =>
      match get "match" cg with
      | Some m =>
          if truthy (Some m) then
            match py_int E m with
            | Some z => Ok z
            | None => Raise "ValueError: invalid literal for int()"
            end
          else Ok 0%Z
      | None => Ok 0%Z
      end
  | None => Ok 0%Z
  end.

(** Genres; [md.genres] gains ['manga'] when [md.manga] starts with yes. *)
Definition step_genres (md : metadata) (bi : pos) (r : element)
  : res (element * metadata) :=
  let cur := findall_el (bi_child "genre") r in
  let r1 := clear_element (bi_child "genre") r in
  let md1 := match manga md with
             | Some m => if startswith (casefold m) "yes"
                         then with_genres (set_add "manga" (genres md)) md
                         else md
             | None => md
             end in
  let* r2 := fold_res (fun r g =>
      let g' := genre_key g in
      if mem g' allow_genres then
        let* m := old_match cur g' in
        if (0 <? m)%Z then Ok (add_element bi "genre" g' [("match", z_str m)] r)
        else Ok (add_element bi "genre" g' [] r)
      else Ok r) (genres md1) r1 in
  Ok (r2, md1).

Definition kids_at (r : element) (p : pos) : list element :=
  match get_at r p with Some e => kids e | None => [] end.

Definition str_or (o : option string) (d : string) : string :=
  match o with Some s => s | None => d end.

(** An existing annotation already holding the description. *)
Definition anno_same (desc : string) (anno : element) : bool :=
  if has_kids anno then
    let split_a := map text (kids anno) in
    let split_desc := split_sep desc (String "010" (String "010" "")) in
    if (length split_a =? length split_desc)%nat then
      (length (filter (fun '(i, t) => opt_eqb (Some t) (nth i split_a None))
                      (indexed 0 split_desc)) =? length split_desc)%nat
    else false
  else opt_eqb (text anno) (Some desc).

(** Description. *)
Definition step_description (md : metadata) (bi : pos) (r : element)
  : res element :=
  match description md with
  | Some d =>
      if truthy (description md) then
        if existsb (anno_same d) (findall_el (bi_child "annotation") r)
        then Ok r
        else
          let n := kid_count r bi in
          let ann := Elem "annotation" [] None
                       (map (fun t => new_element "p" t [])
                            (split_sep d (String "010" (String "010" "")))) in
          let r1 := upd_at bi (append ann) r in
          match language md with
          | Some l =>
              if truthy (language md) then
                let* '(r2, q) :=
                  match List.find (fun q => match get_at r1 q with
                                            | Some a => opt_eqb (get "lang" a) (Some l)
                                            | None => false
                                            end) (findall (bi_child "annotation") r1) with
                  | Some q =>
                      if list_eq_dec Nat.eq_dec (removelast q) bi then
                        let j := last q 0 in
                        Ok (remove_kid bi j r1,
                            (bi ++ [if (j <? n)%nat then n - 1 else n])%list)
                      else Raise "ValueError: list.remove(x): x not in list"
                  | None => Ok (r1, (bi ++ [n])%list)
                  end in
                Ok (upd_at q (set "lang" l) r2)
              else Ok r1
          | None => Ok r1
          end
      else Ok r
  | None => Ok r
  end.

(** Web links: drop the [URL] references, add one per link. *)
Definition step_web_links (md : metadata) (bi : pos) (dbname : string)
  (r : element) : element :=
  match web_links md with
  | [] => r
  | links =>
      let r1 := filter_kids bi (fun c =>
                  negb (String.eqb (tag c) "databaseref"
                        && String.eqb (casefold (str_or (get "type" c) "")) "url")) r in
      fold_left (fun r w =>
          add_element bi "databaseref" w [("type", "URL"); ("dbname", dbname)] r)
        links r1
  end.

(** Maturity rating. *)
Definition step_maturity (md : metadata) (bi : pos) (r : element) : element :=
  match maturity_rating md with
  | Some m =>
      if truthy (maturity_rating md) then
        if existsb (fun c => String.eqb (tag c) "content-rating"
                             && opt_eqb (text c) (Some m)) (kids_at r bi)
        then r
        else add_element bi "content-rating" m [] r
      else r
  | None => r
  end.

(** Tags as one [keywords] element. *)
Definition step_tags (md : metadata) (r : element) : res element :=
  match tags md with
  | [] => Ok r
  | ts => modify_element (bi_child "keywords") (join ", " ts) [] false r
  end.

(** Characters, teams and locations. *)
Definition step_container (items : list (option string)) (name : string)
  (r : element) : res element :=
  match items with
  | [] => Ok r
  | _ =>
      let* '(r1, q) := get_or_create (bi_child name) r in
      let r2 := upd_at q clear r1 in
      Ok (fold_left (fun r c => add_element q "name" (str_or c "") [] r) items r2)
  end.

Definition issue_types : list string := ["issueid"; "issue_id"; "issue-id"].
Definition series_types : list string := ["seriesid"; "series_id"; "series-id"].

(** Issue and series ids (the series test sits inside the issue test). *)
Definition step_ids (md : metadata) (bi : pos) (dbname : string) (r : element)
  : element :=
  if truthy (issue_id md) || truthy (series_id md) then
    let '(add_issue, add_series) :=
      fold_left (fun '(ai, ase) c =>
          if String.eqb (tag c) "databaseref" then
            let t := casefold (str_or (get "type" c) "") in
            if mem t issue_types then
              let ai' := match issue_id md with
                         | Some i => if opt_eqb (text c) (Some i) then false else ai
                         | None => ai
                         end in
              let ase' := if mem t series_types then
                            match series_id md with
                            | Some s => if opt_eqb (text c) (Some s) then false else ase
                            | None => ase
                            end
                          else ase in
              (ai', ase')
            else (ai, ase)
          else (ai, ase)) (kids_at r bi) (true, true) in
    let r1 := if truthy (issue_id md) && add_issue
              then add_element bi "databaseref" (str_or (issue_id md) "")
                     [("type", "IssueID"); ("dbname", dbname)] r
              else r in
    if truthy (series_id md) && add_series
    then add_element bi "databaseref" (str_or (series_id md) "")
           [("type", "SeriesID"); ("dbname", dbname)] r1
    else r1
  else r.

Definition pi_child (x : string) : list string := ["meta-data"; "publish-info"; x].

(** ISBN. *)
Definition step_identifier (md : metadata) (r : element) : res element :=
  if truthy (identifier md)
  then modify_element (pi_child "isbn") (str_or (identifier md) "") [] false r
  else Ok r.

(** Publisher and imprint. *)
Definition step_publisher (md : metadata) (r : element) : res element :=
  if truthy (publisher md) then
    if truthy (imprint md)
    then modify_element (pi_child "publisher") (str_or (publisher md) "")
           [("imprint", str_or (imprint md) "")] false r
    else modify_element (pi_child "publisher") (str_or (publisher md) "") [] true r
  else Ok (clear_element (pi_child "publisher") r).

(** Two-digit years. *)
Definition norm_year (y : Z) : Z :=
  if (y <? 50)%Z then (2000 + y)%Z
  else if (y <? 100)%Z then (1900 + y)%Z
  else y.

(** [md.day or 1] *)
Definition or_one (o : option Z) : Z :=
  match o with Some z => if (z =? 0)%Z then 1%Z else z | None => 1%Z end.

(** [f'{year:04}-{month:02}-{day:02}'] *)
Definition pub_date_str (d m y : Z) : string :=
  z_pad 4 y ++ "-" ++ z_pad 2 m ++ "-" ++ z_pad 2 d.

(** Publish date. *)
Definition step_date (md : metadata) (r : element) : res element :=
  match year md with
  | Some y =>
      if (y =? 0)%Z then Ok r
      else
        let s := pub_date_str (or_one (day md)) (or_one (month md)) (norm_year y) in
        modify_element (pi_child "publish-date") s [("value", s)] false r
  | None => Ok r
  end.

(** Notes, one history paragraph per line. *)
Definition step_notes (md : metadata) (r : element) : res element :=
  match notes md with
  | Some n =>
      if truthy (notes md) then
        let* '(r1, q) := get_or_create ["meta-data"; "document-info"; "history"] r in
        let r2 := upd_at q clear r1 in
        Ok (fold_left (fun r l => add_element q "p" l [] r)
              (split_sep n (String "010" "")) r2)
      else Ok r
  | None => Ok r
  end.

Definition scan_marker : string := "[Scan]".

Definition scan_marked (s : element) : bool :=
  truthy (text s) && startswith (str_or (text s) "") scan_marker.

(** [for s in source: ... source.remove(s)]: removing the current child
    while iterating by index skips the child after it. *)
Fixpoint scan_remove (l : list element) : list element :=
  match l with
  | [] => []
  | s :: l' =>
      if scan_marked s then
        match l' with
        | [] => []
        | s2 :: l'' => s2 :: scan_remove l''
        end
      else s :: scan_remove l'
  end.

(** Scan information. *)
Definition step_scan (md : metadata) (r : element) : res element :=
  match scan_info md with
  | Some si =>
      if truthy (scan_info md) then
        let* '(r1, q) := get_or_create ["meta-data"; "document-info"; "source"] r in
        let r2 := upd_at q (fun e => set_kids (scan_remove (kids e)) e) r1 in
        Ok (add_element q "p" (scan_marker ++ si) [] r2)
      else Ok r
  | None => Ok r
  end.

(** [page_dict]: a Python dict from href to page element. *)
Fixpoint pd_set (k : string) (v : element) (d : list (string * element))
  : list (string * element) :=
  match d with
  | [] => [(k, v)]
  | (k', v') :: d' =>
      if String.eqb k k' then (k, v) :: d' else (k', v') :: pd_set k v d'
  end.

Fixpoint pd_get (k : string) (d : list (string * element)) : option element :=
  match d with
  | [] => None
  | (k', v) :: d' => if String.eqb k k' then Some v else pd_get k d'
  end.

Definition href_of (e : element) : option string :=
  match find_el ["image"] e with Some im => get "href" im | None => None end.

Fixpoint find_kid (t : string) (i : nat) (l : list element)
  : option (nat * element) :=
  match l with
  | [] => None
  | c :: l' => if String.eqb (tag c) t then Some (i, c) else find_kid t (S i) l'
  end.

(** A reused page loses its untagged and [en] titles before a bookmark. *)
Definition keep_title (t : element) : bool :=
  negb (String.eqb (tag t) "title" && mem (str_or (get "lang" t) "") ["en"; ""]).

(** The edits [add_page] makes to a page element. *)
Definition add_page_edit (md : metadata) (p : page_md) (reused is_cover : bool)
  (x : element) : element :=
  let bm := truthy (Some (bookmark p)) in
  let x1 := if reused && bm then set_kids (filter keep_title (kids x)) x else x in
  let x2 := if bm then
              append (new_element "title" (bookmark p)
                        (if truthy (language md)
                         then [("lang", str_or (language md) "")] else [])) x1
            else x1 in
  if is_cover then set_tag "coverpage" x2 else x2.

(** A new page: an [image] child pointing at the file. *)
Definition fresh_page (p : page_md) : element :=
  Elem "page" [] None [new_element "image" "" [("href", filename p)]].

(** Pages.  An element taken from [page_dict] is one shared object: every
    page of the record with its filename edits it, so each place it is
    appended shows the result of all those edits. *)
Definition step_pages (md : metadata) (bi : pos) (r : element)
  : res (element * metadata) :=
  let* '(r1, body) := get_or_create ["body"] r in
  let '(r2, pd0) :=
    match find_kid "coverpage" 0 (kids_at r1 bi) with
    | Some (j, c) =>
        (remove_kid bi j r1,
         match href_of c with Some h => [(h, set_tag "page" c)] | None => [] end)
    | None => (r1, [])
    end in
  let pd := fold_left (fun pd b =>
              if String.eqb (tag b) "page" then
                match href_of b with Some h => pd_set h b pd | None => pd end
              else pd) (kids_at r2 body) pd0 in
  let r3 := upd_at body (fun e => set_kids [] (set_text None e)) r2 in
  let sorted := sort_pages (pages md) in
  let ip := indexed 0 sorted in
  let shared (h : string) (x : element) : element :=
    fold_left (fun x '(i, p) =>
        if String.eqb (filename p) h then add_page_edit md p true (i =? 0) x else x)
      ip x in
  let r4 := fold_left (fun r '(i, p) =>
      let el := match pd_get (filename p) pd with
                | Some x => shared (filename p) x
                | None => add_page_edit md p false (i =? 0) (fresh_page p)
                end in
      if (i =? 0)%nat then upd_at bi (append el) r else upd_at body (append el) r)
    ip r3 in
  Ok (r4, with_pages sorted md).

(** [_convert_metadata_to_xml(metadata, xml)]: [xml] is the parsed entry
    ([None] for empty bytes); the result is the new root and the record,
    which the merge mutates ([genres], [pages]). *)
Definition merge (md : metadata) (xml : option element)
  : res (element * metadata) :=
  let* r0 := init_root xml in
  let* '(r1, bi) := get_or_create bi_path r0 in
  let r2 := step_credits md bi r1 in
  let* r3 := step_series md bi r2 in
  let r4 := step_title md bi r3 in
  let* '(r5, md1) := step_genres md bi r4 in
  let* r6 := step_description md1 bi r5 in
  let dbname := str_or (data_origin md1) "Unknown" in
  let r7 := step_web_links md1 bi dbname r6 in
  let r8 := step_maturity md1 bi r7 in
  let* r9 := step_tags md1 r8 in
  let* r10 := step_container (characters md1) "characters" r9 in
  let* r11 := step_container (teams md1) "teams" r10 in
  let* r12 := step_container (locations md1) "locations" r11 in
  let r13 := step_ids md1 bi dbname r12 in
  let* '(r14, _) := get_or_create ["meta-data"; "publish-info"] r13 in
  let* r15 := step_identifier md1 r14 in
  let* r16 := step_publisher md1 r15 in
  let* r17 := step_date md1 r16 in
  let* r18 := step_notes md1 r17 in
  let* r19 := step_scan md1 r18 in
  let* '(r20, md2) := step_pages md1 bi r19 in
  Ok (indent r20, md2).

End Merge.
End Merge.

(** ** [_convert_xml_to_metadata]: the extraction *)

Module Extract.
Section Extract.
Import Merge.
Variable E : env.

Definition acbf_namespaces : list string :=
  ["http://www.acbf.info/xml/acbf/1.1"; "http://www.acbf.info/xml/acbf/1.2"].

(** [acbf_tags]: the root tags accepted. *)
Definition acbf_tags : list string :=
  app (map (fun ns => "{" ++ ns ++ "}ACBF") acbf_namespaces) ["ACBF"].

Definition kids_named (t : string) (e : element) : list element :=
  filter (fun c => String.eqb (tag c) t) (kids e).

(** [get(name)]: the text of [root.find('.//' + name)]. *)
Definition get_text (name : string) (root : element) : option string :=
  match find_desc name root with Some t => text t | None => None end.

(** [get_with_lang(name)] on [book_info]. *)
Definition get_with_lang (book_info : element) (name : string) : option string :=
  match kids_named name book_info with
  | [] => None
  | ts =>
      match List.find (fun t => match get "lang" t with
                                | None => true
                                | Some l => String.eqb l "en"
                                end) ts with
      | Some t => text t
      | None => None
      end
  end.

Definition para_sep : string := String "010" (String "010" "").

(** [annotation_to_string(ele)] *)
Definition annotation_to_string (ele : element) : option string :=
  let anno :=
    if has_kids ele
    then flat_map (fun a => match text a with
                            | Some s => if truthy (Some s) then [s] else []
                            | None => [] end) (kids ele)
    else match text ele with
         | Some s => if truthy (Some s) then [s] else []
         | None => [] end in
  match anno with [] => None | _ => Some (join para_sep anno) end.

(** The annotation loop: no [lang] wins at once, then [en], then the first. *)
Fixpoint pick_description (l : list element) (acc : option string)
  : option string :=
  match l with
  | [] => acc
  | d :: l' =>
      let lang := str_or (get "lang" d) "" in
      if String.eqb lang "" then annotation_to_string d
      else if String.eqb lang "en" then pick_description l' (annotation_to_string d)
      else match acc with
           | None => pick_description l' (annotation_to_string d)
           | Some _ => pick_description l' acc
           end
  end.

(** The genre loop: [(genres, manga)]. *)
Definition read_genres (bi : element) : list string * option string :=
  fold_left (fun '(gs, mg) g =>
      match text g with
      | Some t =>
          if truthy (Some t) then
            (set_add (casefold (replace_char "_" " " t)) gs,
             if String.eqb (casefold t) "manga" then Some "Yes" else mg)
          else (gs, mg)
      | None => (gs, mg)
      end) (kids_named "genre" bi) ([], None).

Definition is_digit (c : ascii) : bool :=
  let n := nat_of_ascii c in (48 <=? n) && (n <=? 57).

(** [re.match(r'\d{4}', text)]: the leading four digits, as a number
    (Python keeps the matched [str]). *)
Definition leading_year (s : string) : option Z :=
  match s with
  | String a (String b (String c (String d _))) =>
      if is_digit a && is_digit b && is_digit c && is_digit d
      then Some (Z.of_nat (1000 * (nat_of_ascii a - 48) + 100 * (nat_of_ascii b - 48)
                           + 10 * (nat_of_ascii c - 48) + (nat_of_ascii d - 48)))
      else None
  | _ => None
  end.

Definition opt_set_add (x : option string) (l : list (option string))
  : list (option string) :=
  if existsb (opt_eqb x) l then l else (l ++ [x])%list.

Definition name_set (path : list string) (bi : element) : list (option string) :=
  fold_left (fun s c => opt_set_add (text c) s) (findall_el path bi) [].

(** The credit loop. *)
Definition author_name (n : element) : option string :=
  let first := find_el ["first-name"] n in
  let middle := find_el ["middle-name"] n in
  let last := find_el ["last-name"] n in
  let nick := find_el ["nickname"] n in
  let txt (o : option element) := match o with Some e => text e | None => None end in
  match first, last with
  | Some f, Some l =>
      if truthy (text f) && truthy (text l) then
        match middle with
        | None => Some (str_or (text f) "" ++ " " ++ str_or (text l) "")
        | Some m =>
            if truthy (text m)
            then Some (str_or (text f) "" ++ " " ++ str_or (text m) "" ++ " "
                       ++ str_or (text l) "")
            else Some ""
        end
      else if truthy (txt nick) then txt nick
      else if truthy (txt first) then txt first
      else None
  | _, _ =>
      if truthy (txt nick) then txt nick
      else if truthy (txt first) then txt first
      else None
  end.

Definition read_credits (bi : element) : list credit :=
  fold_left (fun cs n =>
      match get "activity" n with
      | Some r =>
          if truthy (Some r) then
            let r' := if String.eqb (casefold r) "coverartist" then "Cover" else r in
            match author_name n with
            | Some name => add_credit E cs (mkCredit name r' false (str_or (get "lang" n) ""))
            | None => cs
            end
          else cs
      | None => cs
      end) (kids_named "author" bi) [].

(** [history] and [source]: read only when the element has children. *)
Definition read_notes (root : element) : option string :=
  match find_desc "history" root with
  | Some h =>
      if has_kids h
      then Some (join (String "010" "")
                   (flat_map (fun c => if truthy (text c) then [str_or (text c) ""] else [])
                             (kids h)))
      else None
  | None => None
  end.

Definition read_scan_info (root : element) : option string :=
  match find_desc "source" root with
  | Some s =>
      if has_kids s
      then fold_left (fun acc c =>
             if truthy (text c) && startswith (str_or (text c) "") Merge.scan_marker
             then Some (drop 6 (str_or (text c) "")) else acc) (kids s) None
      else None
  | None => None
  end.

(** [page_file_list.get(filename)]: the last index of the name. *)
Definition file_index (f : string) (file_list : list string) : option nat :=
  fold_left (fun acc '(i, g) => if String.eqb f g then Some i else acc)
            (indexed 0 file_list) None.

(** The bookmark loop over a page's titles. *)
Fixpoint pick_bookmark (l : list element) (acc : string) : string :=
  match l with
  | [] => acc
  | t :: l' =>
      let lang := str_or (get "lang" t) "" in
      if String.eqb lang "" && truthy (text t) then str_or (text t) ""
      else if String.eqb lang "en" && truthy (text t) then pick_bookmark l' (str_or (text t) "")
      else if String.eqb acc "" && truthy (text t) then pick_bookmark l' (str_or (text t) "")
      else pick_bookmark l' acc
  end.

Definition read_page (file_list : list string) (i : nat) (page : element)
  : page_md :=
  let fname := match find_el ["image"] page with
               | Some im => str_or (get "href" im) ""
               | None => "" end in
  let ai := match file_index fname file_list with Some j => j | None => i end in
  mkPage fname (Z.of_nat i) (Z.of_nat ai)
         (pick_bookmark (kids_named "title" page) "") "".

(** The page nodes: the cover first, then [body/page]. *)
Definition page_nodes (root bi : element) : list element :=
  match find_el ["coverpage"] bi with
  | Some c => c :: findall_el ["body"; "page"] root
  | None => findall_el ["body"; "page"] root
  end.

Definition read_pages (root bi : element) (file_list : list string)
  : list page_md :=
  map (fun '(i, p) => read_page file_list i p) (indexed 0 (page_nodes root bi)).

(** The record read from a tree that has a [meta-data/book-info]; the
    [languages] lookup [langs[0][0]] raises [IndexError] when the first
    [languages] element has no child. *)
Definition read_book (root bi : element) (file_list : list string)
  : res metadata :=
  let seq := kids_named "sequence" bi in
  let '(series0, volume0, issue0) :=
    match seq with
    | s0 :: _ => (get "title" s0, get "volume" s0,
                  if truthy (text s0) then text s0 else None)
    | [] => (None, None, None)
    end in
  let title0 := xlate E (get_with_lang bi "book-title") in
  let '(series1, title1) :=
    match series0 with None => (title0, None) | Some _ => (series0, title0) end in
  let '(gs, mg) := read_genres bi in
  let desc := pick_description (kids_named "annotation" bi) None in
  let '(pub, imp) :=
    match find_desc "publisher" root with
    | Some p => (xlate E (text p), get "imprint" p)
    | None => (None, None)
    end in
  let pub_date := find_desc "publish-date" root in
  let '(dy0, mo0, yr0) :=
    match pub_date with
    | Some pd => parse_date_str E (get "value" pd)
    | None => (None, None, None)
    end in
  let yr := match yr0, pub_date with
            | None, Some pd =>
                if has_kids pd && truthy (text pd)
                then leading_year (str_or (text pd) "") else yr0
            | _, _ => yr0
            end in
  let* lang :=
    match kids_named "languages" bi with
    | l0 :: _ =>
        match kids l0 with
        | c :: _ => Ok (get "lang" c)
        | [] => Raise "IndexError: child index out of range"
        end
    | [] => Ok None
    end in
  let rating := xlate E (get_text "content-rating" root) in
  let tgs := fold_left (fun s t => set_add t s) (split E (get_text "keywords" root) ",") [] in
  let links :=
    flat_map (fun d => match get "type" d with
                       | Some t => if String.eqb (casefold t) "url"
                                   then [parse_url E (text d)] else []
                       | None => [] end) (kids_named "databaseref" bi) in
  let isbn := xlate E (get_text "isbn" root) in
  Ok (mkMd series1 issue0 title1 volume0 gs desc (read_notes root) pub imp
           dy0 mo0 yr lang links mg rating (read_scan_info root) tgs
           (read_pages root bi file_list)
           (name_set ["characters"; "name"] bi) (name_set ["teams"; "name"] bi)
           (name_set ["locations"; "name"] bi) (read_credits bi)
           None None None isbn None false).

(** [_convert_xml_to_metadata(root, file_list)] *)
Definition extract (root : element) (file_list : list string) : res metadata :=
  if mem (tag root) acbf_tags then
    let* r := remove_ns root in
    match find_el ["meta-data"; "book-info"] r with
    | None => Ok empty_md
    | Some bi => read_book r bi file_list
    end
  else if endswith (tag root) "}ACBF"
  then Raise "Unknown ACBF version"
  else Raise "Not an ACBF file".

End Extract.
End Extract.

(** ** The tag adapter over an archive *)

Module Adapter.
Import Merge Extract.

(** The content of an archive entry, as [ET.fromstring] sees it. *)
Inductive content : Type :=
| Malformed
| Xml (e : element).

(** The archive collaborator: named entries, and whether the format
    stores arbitrary files. *)
Record archive := mkArchive {
  entries : list (string * content);
  supports_files : bool }.

Definition get_filename_list (a : archive) : list string := map fst (entries a).

Definition read_file (a : archive) (name : string) : content :=
  match List.find (fun '(n, _) => String.eqb n name) (entries a) with
  | Some (_, c) => c
  | None => Malformed
  end.



Section Adapter.
Variable E : env.

(** [_get_parseable_credits] *)
Definition parseable_credits : list string :=
  writer_synonyms E ++ penciller_synonyms E ++ inker_synonyms E
  ++ colorist_synonyms E ++ letterer_synonyms E ++ cover_synonyms E
  ++ editor_synonyms E ++ translator_synonyms E
  ++ ["adapter"; "photographer"; "assistant editor"; "other"].

(** [supports_credit_role] *)
Definition supports_credit_role (role : string) : bool :=
  mem (casefold role) parseable_credits.

Definition supports_tags (a : archive) : bool := supports_files a.

(** [_validate_bytes] *)
Definition validate_bytes (c : content) : bool :=
  match c with
  | Malformed => false
  | Xml e => endswith (tag e) "ACBF"
  end.

(** The first entry name ending in [.acbf] ([self.file]). *)
Definition locate (a : archive) : option string :=
  List.find (fun f => endswith f ".acbf") (get_filename_list a).

(** [has_tags]: the located entry ([self.file]) and the answer. *)
Definition has_tags (a : archive) : option string * bool :=
  let file := locate a in
  (file, match file with
         | Some f => supports_tags a && validate_bytes (read_file a f)
         | None => false
         end).

(** [remove_tags]: [self.has_tags(archive) and archive.remove_file(self.file)].
    The archive's [remove_file] is a collaborator whose contract promises
    only a [bool]: it is a parameter, giving its answer and the archive it
    leaves. *)
Definition remove_tags (remove_file : archive -> string -> bool * archive)
  (a : archive) : bool * archive :=
  match has_tags a with
  | (Some f, true) => remove_file a f
  | _ => (false, a)
  end.

(** [read_tags] *)
Definition read_tags (a : archive) : res metadata :=
  match has_tags a with
  | (Some f, true) =>
      match read_file a f with
      | Xml e =>
          if validate_bytes (Xml e)
          then extract E e (get_page_name_list E (get_filename_list a))
          else Ok empty_md
      | Malformed => Ok empty_md
      end
  | _ => Ok empty_md
  end.

(** Serialising the root ([ET.tostring]) and parsing the bytes again: the
    root's [xmlns] attribute becomes the namespace of every tag, and an
    empty text reads back as no text. *)
Fixpoint qualify (ns : string) (e : element) : element :=
  let 'Elem t a x k := e in
  Elem ("{" ++ ns ++ "}" ++ t) a
       (match x with Some s => if String.eqb s "" then None else x | None => None end)
       (map (qualify ns) k).

Fixpoint dict_del (k : string) (a : list (string * string)) : list (string * string) :=
  match a with
  | [] => []
  | (k', v) :: a' => if String.eqb k k' then a' else (k', v) :: dict_del k a'
  end.

Definition reparse (root : element) : element :=
  match get "xmlns" root with
  | Some ns => set_attrib (dict_del "xmlns" (attrib root)) (qualify ns root)
  | None => root
  end.



End Adapter.
End Adapter.

(** ** A concrete collaborator set, for evaluating the code on examples *)

Module Sample.
Import Merge Extract Adapter.

Definition decimal (s : string) : option Z :=
  let fix go (s : string) (acc : Z) : option Z :=
    match s with
    | EmptyString => Some acc
    | String c s' =>
        if is_digit c then go s' (10 * acc + Z.of_nat (nat_of_ascii c - 48))%Z
        else None
    end in
  match s with EmptyString => None | _ => go s 0%Z end.

Definition env0 : env :=
  mkEnv ["writer"; "plotter"; "scripter"; "script"]
        ["artist"; "penciller"; "penciler"; "breakdowns"; "pencils"; "painting"]
        ["inker"; "artist"; "finishes"; "inks"; "painting"]
        ["colorist"; "colourist"; "colorer"; "colourer"; "colors"; "painting"]
        ["letterer"; "letters"]
        ["cover"; "covers"; "coverartist"; "cover artist"]
        ["editor"; "edits"; "editing"]
        ["translator"; "translation"]
        (fun o => if truthy o then o else None)
        (fun o sep => match o with Some s => split_sep s sep | None => [] end)
        (fun _ => (None, None, None))
        (fun o => str_or o "")
        (fun cs c => app cs [c])
        (fun l => l)
        decimal.

Definition page (f : string) (i : Z) : page_md := mkPage f i i "" "".

(** A record whose only field is a series id. *)
Definition md_series_id : metadata :=
  mkMd None None None None [] None None None None None None None None []
       None None None [] [] [] [] [] [] None None (Some "4050-1") None None false.

(** A record with series [New], issue [2]. *)
Definition md_series : metadata :=
  mkMd (Some "New") (Some "2") None None [] None None None None None None None
       None [] None None None [] [] [] [] [] [] None None None None None false.

(** A record whose only field is the year. *)
Definition md_year (y : Z) : metadata :=
  mkMd None None None None [] None None None None None None (Some y) None []
       None None None [] [] [] [] [] [] None None None None None false.

(** An existing document with exactly one [sequence]. *)
Definition one_sequence_tree : element :=
  Elem "ACBF" [] None
    [Elem "meta-data" [] None
       [Elem "book-info" [] None
          [Elem "sequence" [("title", "Old")] (Some "1") []]]].

Definition book_info_titles (ts : list element) : element :=
  Elem "book-info" [] None ts.

Definition title_el (lang : option string) (t : string) : element :=
  Elem "book-title" (match lang with Some l => [("lang", l)] | None => nil end) (Some t) [].

Definition page_title (lang : option string) (t : string) : element :=
  Elem "title" (match lang with Some l => [("lang", l)] | None => nil end) (Some t) [].

(** An archive whose [.acbf] entry has the root [NotACBF]. *)
Definition archive_not_acbf : archive :=
  mkArchive [("page1.jpg", Malformed); ("x.acbf", Xml (Elem "NotACBF" [] None []))] true.

(** An archive whose [.acbf] entry has an ACBF root in an unknown namespace. *)
Definition archive_future_acbf : archive :=
  mkArchive [("x.acbf", Xml (Elem "{http://www.acbf.info/xml/acbf/9.9}ACBF" [] None []))] true.

(** An archive whose [.acbf] entry does not parse. *)
Definition archive_malformed : archive :=
  mkArchive [("page1.jpg", Malformed); ("x.acbf", Malformed)] true.

(** A document whose source holds two scan paragraphs. *)
Definition two_scans_tree : element :=
  Elem "ACBF" [] None
    [Elem "meta-data" [] None
       [Elem "book-info" [] None [];
        Elem "document-info" [] None
          [Elem "source" [] None
             [Elem "p" [] (Some "[Scan]first") [];
              Elem "p" [] (Some "[Scan]second") []]]]].

(** An ACBF document without [meta-data/book-info]. *)
Definition no_book_info_tree : element :=
  Elem "{http://www.acbf.info/xml/acbf/1.1}ACBF" [] None
    [Elem "{http://www.acbf.info/xml/acbf/1.1}meta-data" [] None
       [Elem "{http://www.acbf.info/xml/acbf/1.1}publish-info" [] None []]].

End Sample.

(** * Properties *)

Import Merge Extract Adapter Sample.

Definition count_refs (r : element) : nat := List.length (findall (bi_child "databaseref") r).

Definition below (r : element) (t : string) (p : pos) : list pos :=
  match get_at r p with
  | Some e => map (app p) (findall [t] e)
  | None => []
  end.

(** The element [modify_element] leaves at the path: its text is the value
    and the given attributes are set on it. *)
Definition edited (v : string) (attrs : list (string * string)) (ca : bool)
  (e : element) : element :=
  fold_left (fun x '(k, w) => set k w x) attrs
            (set_text (Some v) (if ca then set_attrib [] e else e)).

(** Tags the code writes: never in a namespace. *)
Definition good_tag (t : string) : bool := negb (startswith t "{").

Fixpoint all_tags (P : string -> bool) (e : element) : bool :=
  let 'Elem t _ _ k := e in P t && forallb (all_tags P) k.

Definition bi_kid_ok (c : element) : bool :=
  negb (mem (tag c) ["coverpage"; "languages"]).

Definition not_tagged (t : string) (c : element) : bool := negb (String.eqb (tag c) t).

Definition bi_ok (b : element) : bool :=
  String.eqb (tag b) "book-info" && forallb bi_kid_ok (kids b).

Definition md_ok (m : element) : bool :=
  String.eqb (tag m) "meta-data" &&
  match kids m with
  | b :: rest => bi_ok b && forallb (not_tagged "book-info") rest
  | [] => false
  end.

(** The shape of the tree the merge builds from no document, up to the
    pages step: an [ACBF] root with a single [meta-data] child whose first
    child is the only [book-info], which holds no [coverpage] and no
    [languages]. *)
Definition fresh_shape (r : element) : bool :=
  String.eqb (tag r) "ACBF" &&
  match kids r with [m] => md_ok m | _ => false end &&
  all_tags good_tag r.

Definition safe_edit (q : pos) (f : element -> element) : Prop :=
  (forall e, tag (f e) = tag e) /\
  (forall e, all_tags good_tag e = true -> all_tags good_tag (f e) = true) /\
  q <> [] /\
  (q = [0] -> forall e, md_ok e = true -> md_ok (f e) = true) /\
  (q = [0; 0] -> forall e, bi_ok e = true -> bi_ok (f e) = true).

Definition tag_ok (t : string) : bool :=
  good_tag t && negb (mem t ["coverpage"; "languages"]).

Definition path_ok (path : list string) : bool :=
  String.eqb (hd "" path) "meta-data" && forallb tag_ok path.

(** The element [add_page] appends for the page of index [i] of the sorted
    list when [page_dict] is empty. *)
Definition page_el (md : metadata) (i : nat) (p : page_md) : element :=
  add_page_edit md p false (i =? 0) (fresh_page p).

(** The [book-info] of that tree after the pages step. *)
Definition fresh_bi (ba : list (string * string)) (bx : option string)
  (bks : list element) (md1 : metadata) (p0 : page_md) : element :=
  Elem "book-info" ba bx (bks ++ [page_el md1 0 p0]).

(** The tree a merge without an existing entry writes: the cover as the
    last child of [book-info], the other pages in [body]. *)
Definition fresh_tree (a : list (string * string)) (x : option string)
  (ma : list (string * string)) (mx : option string)
  (ba : list (string * string)) (bx : option string) (bks rest : list element)
  (md1 : metadata) (p0 : page_md) (ps : list page_md) : element :=
  Elem "ACBF" a x
    [Elem "meta-data" ma mx (fresh_bi ba bx bks md1 p0 :: rest);
     Elem "body" [] None (map (fun '(i, p) => page_el md1 i p) (indexed 1 ps))].

(** [c.tag == s], the test of a one-step ElementPath lookup. *)
Definition tagged (s : string) (c : element) : bool := String.eqb (tag c) s.

(** A record with a cover and one more page. *)
Definition md_cover : metadata :=
  with_pages [mkPage "cover.jpg" 0 0 "" ""; mkPage "p1.jpg" 1 1 "" ""] empty_md.

(** Pages ordered by display index. *)
Definition di_le (p q : page_md) : Prop := (display_index p <= display_index q)%Z.

(** A tree with every blank or missing text erased. *)
Fixpoint blank_erased (e : element) : element :=
  let 'Elem t a x k := e in
  Elem t a (match x with Some s => if all_space s then None else x | None => None end)
       (map blank_erased k).


(** A record whose only field is the scan information. *)
Definition md_scan : metadata :=
  mkMd None None None None [] None None None None None None None None []
       None None (Some "team") [] [] [] [] [] [] None None None None None false.

(** An archive holding one image and one ACBF entry. *)
Definition archive_one_acbf : archive :=
  mkArchive [("p.jpg", Malformed); ("x.acbf", Xml (Elem "ACBF" [] None []))] true.

(** A [remove_file] that succeeds and drops the named entry. *)
Definition drop_entry (a : archive) (name : string) : bool * archive :=
  (true, mkArchive (filter (fun '(n, _) => negb (String.eqb n name)) (entries a))
                   (supports_files a)).

(** A document whose genre [horror] carries a non-numeric [match]. *)
Definition bad_match_tree : element :=
  Elem "ACBF" [] None
    [Elem "meta-data" [] None
       [Elem "book-info" [] None [Elem "genre" [("match", "x")] (Some "horror") []]]].

(** The reset [step_title] applies to an old [book-title]. *)
Definition title_reset (e : element) : element :=
  match get "lang" e with
  | None => clear e
  | Some l => if String.eqb l "en" then clear e else e
  end.

(** A record whose only field is the title [New]. *)
Definition md_title : metadata :=
  mkMd None None (Some "New") None [] None None None None None None None None []
       None None None [] [] [] [] [] [] None None None None None false.

(** A document whose [book-info] holds one title without a language. *)
Definition untagged_title_tree : element :=
  Elem "ACBF" [] None
    [Elem "meta-data" [] None [book_info_titles [title_el None "Old"]]].

(** A title [get_with_lang] accepts: no [lang], or [lang="en"]. *)
Definition lang_ok (t : element) : bool :=
  match get "lang" t with None => true | Some l => String.eqb l "en" end.

(** The child indices below [p] that a list of positions one level deeper
    names. *)
Definition children_below (p : pos) (qs : list pos) : list nat :=
  flat_map (fun q => if list_eq_dec Nat.eq_dec (firstn (length p) q) p
                     then [nth (length p) q 0] else []) qs.

(** ** Generic facts about the tree operations *)

Lemma indexed_length {A} (l : list A) i : length (indexed i l) = length l.
Proof. revert i; induction l; simpl; auto. Qed.

(** ** C2 *)

(** C2 (code_bug).  Writing a record whose only field is a series id twice
    to the same entry: the first write leaves one [databaseref], the second
    two.  The test for an existing [SeriesID] reference sits inside the test
    for an [IssueID] type, so it never fires and [add_series] stays true. *)
Theorem series_id_reference_grows (E : env) :
  match merge E md_series_id None with
  | Ok (r1, m1) =>
      match merge E m1 (Some (reparse r1)) with
      | Ok (r2, _) => count_refs r1 = 1 /\ count_refs r2 = 2
      | Raise _ => False
      end
  | Raise _ => False
  end.
Proof. vm_compute. split; reflexivity. Qed.

(** ** C3 *)

(** C3 (code_bug).  Merging series [New], issue [2] into a document with
    exactly one [sequence] (series [Old], issue [1]) keeps the old element
    untouched and appends a second one; reading the result back gives the
    old series. *)
Theorem single_sequence_not_rewritten (E : env) (fl : list string) :
  match merge E md_series (Some one_sequence_tree) with
  | Ok (r, _) =>
      findall_el (bi_child "sequence") r =
        [Elem "sequence" [("title", "Old")] (Some "1") [];
         Elem "sequence" [("title", "New")] (Some "2") []] /\
      match extract E r fl with
      | Ok m => series m = Some "Old" /\ issue m = Some "1"
      | Raise _ => False
      end
  | Raise _ => False
  end.
Proof. vm_compute. split; [reflexivity | split; reflexivity]. Qed.

(** ** C6 *)

(** C6 (code_bug).  [get_with_lang] returns the first title that has no
    [lang] or [lang="en"], and [None] when there is none: a lone [fr] title
    is not returned, and an [en] title placed before an untagged one wins.
    The bookmark loop over page titles, written next to it, does apply
    no-lang, then [en], then the first present. *)
Theorem get_with_lang_priority :
  get_with_lang (book_info_titles [title_el (Some "fr") "Titre"; title_el (Some "en") "Title"])
    "book-title" = Some "Title" /\
  get_with_lang (book_info_titles [title_el (Some "fr") "Titre"]) "book-title" = None /\
  get_with_lang (book_info_titles [title_el None "Plain"; title_el (Some "en") "Title"])
    "book-title" = Some "Plain" /\
  get_with_lang (book_info_titles [title_el (Some "en") "Title"; title_el None "Plain"])
    "book-title" = Some "Title" /\
  pick_bookmark [page_title (Some "fr") "Titre"] "" = "Titre" /\
  pick_bookmark [page_title (Some "en") "Title"; page_title None "Plain"] "" = "Plain".
Proof. repeat split; reflexivity. Qed.

(** ** C7 *)

(** C7 (code_bug).  [has_tags] accepts an entry whose root is [NotACBF]:
    [_validate_bytes] only asks that the tag end in [ACBF].  The extraction
    check on the same root rejects it as not an ACBF file, so [read_tags]
    then raises. *)
Theorem has_tags_accepts_foreign_root (E : env) :
  has_tags archive_not_acbf = (Some "x.acbf", true) /\
  read_tags E archive_not_acbf = Raise "Not an ACBF file".
Proof. split; reflexivity. Qed.

(** ** Helper facts and the remaining claims *)



Lemma tag_upd_at p f e :
  (forall x, tag (f x) = tag x) -> tag (upd_at p f e) = tag e.
Proof. intros Hf; destruct p; simpl; auto; destruct e; reflexivity. Qed.

Lemma flat_map_indexed_upd {B} (F : nat * element -> list B) g :
  (forall j c, F (j, g c) = F (j, c)) ->
  forall l i k, flat_map F (indexed k (upd_nth i g l)) = flat_map F (indexed k l).
Proof.
  intros HF l; induction l as [|x l IH]; intros [|i] k; simpl; auto;
    rewrite ?HF, ?IH; reflexivity.
Qed.

Lemma findall_upd_at P : forall q f r,
  (forall x, tag (f x) = tag x) -> length P <= length q ->
  findall P (upd_at q f r) = findall P r.
Proof.
  induction P as [|s P IH]; intros q f r Hf Hl; simpl; auto.
  destruct q as [|i q]; simpl in Hl; [lia|].
  destruct r; simpl. apply flat_map_indexed_upd. intros j c.
  rewrite tag_upd_at by auto. rewrite IH by (auto; lia). reflexivity.
Qed.

Lemma nth_error_upd_nth {A} (g : A -> A) l : forall i,
  nth_error (upd_nth i g l) i = option_map g (nth_error l i).
Proof. induction l; intros [|i]; simpl; auto. Qed.

Lemma get_at_upd_at q : forall f r,
  get_at (upd_at q f r) q = option_map f (get_at r q).
Proof.
  induction q as [|i q IH]; intros f r; simpl; auto.
  destruct r; simpl. rewrite nth_error_upd_nth.
  destruct (nth_error _ i); simpl; auto.
Qed.

Lemma get_at_app (p : pos) : forall (p' : pos) r,
  get_at r (p ++ p')%list = match get_at r p with Some e => get_at e p' | None => None end.
Proof.
  induction p as [|i p IH]; intros p' r; simpl; auto.
  destruct (nth_error (kids r) i); auto.
Qed.

Lemma in_indexed {A} (l : list A) : forall k i c,
  In (i, c) (indexed k l) -> k <= i /\ nth_error l (i - k) = Some c.
Proof.
  induction l as [|x l IH]; intros k i c H; simpl in H; [contradiction|].
  destruct H as [H|H].
  - inversion H; subst. rewrite Nat.sub_diag. simpl. auto.
  - apply IH in H as [H1 H2]. split; [lia|].
    replace (i - k) with (S (i - S k)) by lia. simpl. auto.
Qed.

Lemma findall_valid P : forall r p, In p (findall P r) ->
  length p = length P /\ exists e, get_at r p = Some e.
Proof.
  induction P as [|s P IH]; intros r p H; simpl in H.
  - destruct H as [<-|[]]. simpl. eauto.
  - apply in_flat_map in H as [[i c] [Hi Hp]].
    apply in_indexed in Hi as [_ Hi]. rewrite Nat.sub_0_r in Hi.
    destruct (String.eqb (tag c) s); [|contradiction].
    apply in_map_iff in Hp as [p' [<- Hp']].
    apply IH in Hp' as [Hl [e He]]. simpl. rewrite Hi. split; eauto.
Qed.

Lemma flat_map_flat_map {A B C} (f : A -> list B) (g : B -> list C) l :
  flat_map g (flat_map f l) = flat_map (fun x => flat_map g (f x)) l.
Proof. induction l; simpl; auto. rewrite flat_map_app, IHl. reflexivity. Qed.

Lemma flat_map_ext_in {A B} (f g : A -> list B) l :
  (forall x, In x l -> f x = g x) -> flat_map f l = flat_map g l.
Proof. induction l; simpl; intros H; auto. rewrite H, IHl; auto. Qed.

Lemma map_flat_map {A B C} (f : A -> list B) (g : B -> C) l :
  map g (flat_map f l) = flat_map (fun x => map g (f x)) l.
Proof. induction l; simpl; auto. rewrite map_app, IHl. reflexivity. Qed.

Lemma findall_snoc P : forall t r,
  findall (P ++ [t])%list r = flat_map (below r t) (findall P r).
Proof.
  induction P as [|s P IH]; intros t r.
  - change (findall [t] r = below r t [] ++ [])%list.
    rewrite app_nil_r. unfold below. simpl get_at. symmetry. apply map_id.
  - simpl. rewrite flat_map_flat_map. apply flat_map_ext_in.
    intros [i c] Hi. apply in_indexed in Hi as [_ Hi]. rewrite Nat.sub_0_r in Hi.
    destruct (String.eqb (tag c) s); simpl; auto.
    rewrite IH, map_flat_map. clear IH.
    induction (findall P c) as [|p l IHl]; simpl; auto.
    rewrite IHl. f_equal. unfold below. simpl. rewrite Hi.
    destruct (get_at c p); simpl; auto.
    rewrite map_map. reflexivity.
Qed.

Lemma indexed_app {A} (l : list A) : forall k c,
  indexed k (l ++ [c])%list = (indexed k l ++ [(k + length l, c)])%list.
Proof.
  induction l as [|x l IH]; intros k c; simpl.
  - rewrite Nat.add_0_r. reflexivity.
  - rewrite IH. replace (S k + length l) with (k + S (length l)) by lia.
    reflexivity.
Qed.

Lemma findall_one_append t c e :
  findall [t] (append c e) =
  (findall [t] e ++ (if String.eqb (tag c) t then [[length (kids e)]] else []))%list.
Proof.
  destruct e as [t0 a x k]. unfold append. simpl. rewrite indexed_app, flat_map_app.
  simpl. destruct (String.eqb (tag c) t); simpl; rewrite ?app_nil_r; reflexivity.
Qed.

Lemma get_or_create_find P r r1 q :
  get_or_create P r = Ok (r1, q) -> find P r1 = Some q.
Proof.
  unfold get_or_create, add_path. destruct (find P r) eqn:H; intros He.
  - inversion He; subst; auto.
  - destruct (fold_res _ _ _) as [r'|m]; simpl in He; [|discriminate].
    destruct (find P r') eqn:H'; inversion He; subst; auto.
Qed.

Lemma find_in P r q : find P r = Some q -> In q (findall P r).
Proof. unfold find. destruct (findall P r); simpl; intros H; inversion H; auto. Qed.

Lemma tag_edited v attrs ca e : tag (edited v attrs ca e) = tag e.
Proof.
  unfold edited. assert (H : tag (set_text (Some v) (if ca then set_attrib [] e else e)) = tag e)
    by (destruct ca, e; reflexivity).
  revert H. generalize (set_text (Some v) (if ca then set_attrib [] e else e)).
  induction attrs as [|[k w] attrs IH]; simpl; intros x Hx; auto.
  apply IH. destruct x; simpl in *; auto.
Qed.

Lemma tag_append c e : tag (append c e) = tag e.
Proof. destruct e; reflexivity. Qed.

Lemma modify_element_spec path v attrs ca r r' :
  path <> [] -> modify_element path v attrs ca r = Ok r' ->
  exists q e0, find path r' = Some q /\ get_at r' q = Some (edited v attrs ca e0).
Proof.
  intros Hp H. unfold modify_element in H.
  destruct (get_or_create (removelast path) r) as [[r1 pp]|m] eqn:Hg;
    simpl in H; [|discriminate].
  apply get_or_create_find in Hg.
  destruct (find path r1) as [q|] eqn:Hf.
  - inversion H; subst; clear H.
    pose proof (findall_valid _ _ _ (find_in _ _ _ Hf)) as [Hl [e He]].
    exists q, e. split.
    + unfold find in *. rewrite findall_upd_at; auto; [apply tag_edited | lia].
    + rewrite get_at_upd_at, He. reflexivity.
  - inversion H; subst; clear H.
    pose proof (app_removelast_last "" Hp) as Hpath.
    remember (removelast path) as P. remember (last path "") as t.
    unfold find in Hg. destruct (findall P r1) as [|p0 rest] eqn:HP;
      simpl in Hg; [discriminate|]. inversion Hg; subst p0; clear Hg.
    assert (Hpp : In pp (findall P r1)) by (rewrite HP; left; auto).
    apply findall_valid in Hpp as [Hlp [e He]].
    unfold find in Hf. rewrite Hpath, findall_snoc, HP in Hf. simpl in Hf.
    unfold below at 1 in Hf. rewrite He in Hf.
    destruct (findall [t] e) eqn:Ht; [|discriminate]. clear Hf.
    set (r2 := upd_at pp (append (Elem t [] None [])) r1).
    assert (Hn : kid_count r1 pp = length (kids e)) by (unfold kid_count; rewrite He; auto).
    rewrite Hn.
    assert (Hr2 : get_at r2 pp = Some (append (Elem t [] None []) e))
      by (unfold r2; rewrite get_at_upd_at, He; reflexivity).
    exists (pp ++ [length (kids e)])%list, (Elem t [] None []). split.
    + unfold find. rewrite findall_upd_at; [| apply tag_edited |].
      * rewrite Hpath, findall_snoc. unfold r2 at 2.
        rewrite findall_upd_at; [| apply tag_append | lia]. rewrite HP. simpl.
        unfold below at 1. rewrite Hr2, findall_one_append, Ht. simpl.
        rewrite String.eqb_refl. reflexivity.
      * rewrite Hpath, !length_app. simpl. lia.
    + rewrite get_at_upd_at, get_at_app, Hr2. simpl.
      destruct e as [t0 a0 x0 k0]; simpl.
      rewrite nth_error_app2, Nat.sub_diag by lia. reflexivity.
Qed.

Lemma dict_get_set k v a : dict_get k (dict_set k v a) = Some v.
Proof.
  induction a as [|[k' v'] a IH]; simpl; [rewrite String.eqb_refl; auto|].
  destruct (String.eqb k k') eqn:H; simpl; [rewrite String.eqb_refl | rewrite H]; auto.
Qed.

Lemma step_date_writes md r r' y :
  year md = Some y -> y <> 0%Z -> step_date md r = Ok r' ->
  exists e, find_el (pi_child "publish-date") r' = Some e /\
    text e = Some (pub_date_str (or_one (day md)) (or_one (month md)) (norm_year y)) /\
    get "value" e = text e.
Proof.
  intros Hy Hy0 H. unfold step_date in H. rewrite Hy in H.
  rewrite (proj2 (Z.eqb_neq y 0) Hy0) in H.
  apply modify_element_spec in H as [q [e0 [Hf He]]]; [|discriminate].
  exists (edited (pub_date_str (or_one (day md)) (or_one (month md)) (norm_year y))
            [("value", pub_date_str (or_one (day md)) (or_one (month md)) (norm_year y))]
            false e0).
  unfold find_el. rewrite Hf, He. split; [reflexivity|].
  destruct e0 as [t a x k]. unfold edited, get. simpl. rewrite dict_get_set. auto.
Qed.

Lemma fold_last_marked (l : list element) (d : element) : forall (a : option string),
  fold_left (fun acc c => if scan_marked c then Some (drop 6 (str_or (text c) "")) else acc) l a =
  match filter scan_marked l with
  | [] => a
  | _ :: _ => Some (drop 6 (str_or (text (last (filter scan_marked l) d)) ""))
  end.
Proof.
  induction l as [|c l IH]; intros a; simpl; auto.
  destruct (scan_marked c) eqn:Hc; rewrite IH; auto.
  destruct (filter scan_marked l); reflexivity.
Qed.

Lemma read_scan_info_last root s :
  find_desc "source" root = Some s -> filter scan_marked (kids s) <> [] ->
  read_scan_info root = Some (drop 6 (str_or (text (last (filter scan_marked (kids s)) s)) "")).
Proof.
  intros Hs Hne. unfold read_scan_info. rewrite Hs.
  assert (Hk : has_kids s = true)
    by (unfold has_kids; destruct (kids s); [contradiction | reflexivity]).
  rewrite Hk.
  change (fold_left (fun acc c => if scan_marked c then Some (drop 6 (str_or (text c) "")) else acc)
            (kids s) None = Some (drop 6 (str_or (text (last (filter scan_marked (kids s)) s)) ""))).
  rewrite (fold_last_marked _ s). destruct (filter scan_marked (kids s)); [contradiction|reflexivity].
Qed.

Lemma read_book_scan_info E root bi fl md :
  read_book E root bi fl = Ok md -> scan_info md = read_scan_info root.
Proof.
  unfold read_book. intros H.
  repeat match type of H with
         | context [match ?x with (_, _) => _ end] => destruct x
         end.
  match type of H with bind ?x _ = _ => destruct x end; simpl in H; inversion H; reflexivity.
Qed.

Lemma substring_empty a b : substring a b "" = "".
Proof. destruct a, b; reflexivity. Qed.

Lemma substring_prefix : forall a b d s, a + b <= d ->
  substring a b (substring 0 d s) = substring a b s.
Proof.
  induction a as [|a IH]; intros b d s H.
  - revert d s H. induction b as [|b IHb]; intros d s H.
    { destruct (substring 0 d s), s; reflexivity. }
    destruct d as [|d]; [lia|]. destruct s as [|c s]; [reflexivity|]. simpl.
    f_equal. apply IHb. lia.
  - destruct d as [|d]; [lia|]. destruct s as [|c s]; [reflexivity|]. simpl.
    apply IH. lia.
Qed.

Lemma substring_substring : forall c a b d s, a + b <= d ->
  substring a b (substring c d s) = substring (c + a) b s.
Proof.
  induction c as [|c IH]; intros a b d s H.
  - apply substring_prefix. exact H.
  - destruct s as [|x s]; simpl; [apply substring_empty|]. apply IH. exact H.
Qed.

Lemma endswith_suffix (s : string) :
  endswith s "}ACBF" = true -> endswith s "ACBF" = true.
Proof.
  unfold endswith. cbn [String.length]. intros H.
  apply andb_prop in H as [Hn Hs]. apply Nat.leb_le in Hn. apply String.eqb_eq in Hs.
  apply andb_true_intro. split; [apply Nat.leb_le; lia|]. apply String.eqb_eq.
  replace (String.length s - 4) with (String.length s - 5 + 1) by lia.
  rewrite <- (substring_substring _ 1 4 5 s) by lia. rewrite Hs. reflexivity.
Qed.

(** An entry whose root is [{.../9.9}ACBF] passes [_validate_bytes], and
    [read_tags] raises instead of returning an empty record. *)
Lemma read_tags_unknown_version :
  read_tags env0 archive_future_acbf = Raise "Unknown ACBF version".
Proof. reflexivity. Qed.

(** C4 (corrected).  [read_tags] returns the empty record when the located
    entry fails to parse or fails validation; but an entry whose root tag
    is [ACBF] in a namespace that is not one of the accepted ones (its tag
    ends in [}ACBF] and is not an accepted tag) passes validation, and then
    [read_tags] raises [Unknown ACBF version]. *)
Theorem read_tags_outcomes (E : env) (a : archive) :
  ((forall f, locate a = Some f -> supports_files a = true ->
              validate_bytes (read_file a f) = false) ->
   read_tags E a = Ok empty_md) /\
  (forall f e, locate a = Some f -> supports_files a = true -> read_file a f = Xml e ->
   endswith (tag e) "}ACBF" = true -> mem (tag e) acbf_tags = false ->
   read_tags E a = Raise "Unknown ACBF version").
Proof.
  split.
  - intros H. unfold read_tags, has_tags, supports_tags.
    destruct (locate a) as [f|]; auto.
    destruct (supports_files a) eqn:Hs; simpl; auto.
    rewrite (H f eq_refl eq_refl). reflexivity.
  - intros f e Hl Hs Hr Hv Hm. unfold read_tags, has_tags, supports_tags.
    rewrite Hl, Hs, Hr. simpl.
    rewrite (endswith_suffix (tag e) Hv). unfold extract. rewrite Hm, Hv.
    reflexivity.
Qed.

Lemma read_tags_outcomes_witness :
  read_tags env0 archive_malformed = Ok empty_md /\
  read_tags env0 archive_future_acbf = Raise "Unknown ACBF version".
Proof.
  split.
  - apply (proj1 (read_tags_outcomes env0 archive_malformed)).
    intros f Hf _. vm_compute in Hf. inversion Hf. reflexivity.
  - apply (proj2 (read_tags_outcomes env0 archive_future_acbf) "x.acbf"
             (Elem "{http://www.acbf.info/xml/acbf/9.9}ACBF" [] None []));
      reflexivity.
Defined.




(** A record with year [0] gets no [publish-date] element. *)
Lemma year_zero_no_publish_date :
  exists r m, merge env0 (md_year 0) None = Ok (r, m) /\
              year (md_year 0) = Some 0%Z /\
              findall (pi_child "publish-date") r = [].
Proof. vm_compute. do 2 eexists. split; [reflexivity | split; reflexivity]. Qed.

(** C8 (corrected).  For a year other than [0], the date step writes a
    [publish-date] whose text is the zero-padded date of the normalized
    year, and whose [value] attribute is that same string; a year of [0]
    is falsy and the date step leaves the tree as it is, writing no
    publish date; the two-digit normalization maps 5, 49, 50, 99, 2012 to
    2005, 2049, 1950, 1999, 2012. *)
Theorem publish_date_mirrored :
  (forall (md : metadata) (r r' : element) (y : Z),
   year md = Some y -> y <> 0%Z -> step_date md r = Ok r' ->
   exists e, find_el (pi_child "publish-date") r' = Some e /\
     text e = Some (pub_date_str (or_one (day md)) (or_one (month md)) (norm_year y)) /\
     get "value" e = text e) /\
  (forall (md : metadata) (r : element), year md = Some 0%Z -> step_date md r = Ok r) /\
  map norm_year [5; 49; 50; 99; 2012]%Z = [2005; 2049; 1950; 1999; 2012]%Z /\
  pub_date_str (or_one None) (or_one (Some 7%Z)) (norm_year 5) = "2005-07-01".
Proof.
  split; [|split; [|split; reflexivity]].
  - intros md r r' y Hy Hy0 H. eapply step_date_writes; eauto.
  - intros md r Hy. unfold step_date. rewrite Hy. reflexivity.
Qed.

Lemma publish_date_mirrored_witness :
  exists r', step_date (md_year 12) (Elem "ACBF" [] None []) = Ok r' /\
    exists e, find_el (pi_child "publish-date") r' = Some e /\
              text e = Some "2012-01-01" /\ get "value" e = text e.
Proof.
  destruct (step_date (md_year 12) (Elem "ACBF" [] None [])) as [r'|m] eqn:H;
    [| vm_compute in H; discriminate H].
  exists r'. split; [reflexivity|].
  destruct (proj1 publish_date_mirrored (md_year 12) _ _ 12%Z eq_refl ltac:(discriminate) H)
    as [e [He [Ht Hv]]].
  exists e. split; [exact He | split; [rewrite Ht; reflexivity | exact Hv]].
Defined.

(** Two marked paragraphs [first] and [second]: the scan info read is
    [second]. *)
Lemma two_scan_paragraphs_last_wins :
  match extract env0 two_scans_tree [] with
  | Ok m => scan_info m = Some "second" /\ scan_info m <> Some "first"
  | Raise _ => False
  end.
Proof. vm_compute. split; [reflexivity|discriminate]. Qed.

(** C9 (corrected).  When the [source] element holds marked paragraphs,
    the extracted scan info is the text of the LAST of them with the
    marker stripped. *)
Theorem scan_info_from_last_marker (E : env) (r r' s : element) (fl : list string)
  (md : metadata) :
  remove_ns r = Ok r' -> find_el bi_path r' <> None ->
  find_desc "source" r' = Some s -> filter scan_marked (kids s) <> [] ->
  extract E r fl = Ok md ->
  scan_info md = Some (drop 6 (str_or (text (last (filter scan_marked (kids s)) s)) "")).
Proof.
  intros Hr Hbi Hs Hne H. unfold extract in H.
  destruct (mem (tag r) acbf_tags);
    [| destruct (endswith (tag r) "}ACBF"); discriminate].
  rewrite Hr in H. simpl in H. unfold bi_path in Hbi.
  destruct (find_el ["meta-data"; "book-info"] r') as [bi|]; [|contradiction].
  apply read_book_scan_info in H. rewrite H. apply read_scan_info_last; auto.
Qed.

Lemma scan_info_from_last_marker_witness :
  exists md, extract env0 two_scans_tree [] = Ok md /\ scan_info md = Some "second".
Proof.
  destruct (extract env0 two_scans_tree []) as [md|m] eqn:H;
    [| vm_compute in H; discriminate H].
  exists md. split; [reflexivity|].
  rewrite (scan_info_from_last_marker env0 two_scans_tree two_scans_tree
             (Elem "source" [] None
                [Elem "p" [] (Some "[Scan]first") [];
                 Elem "p" [] (Some "[Scan]second") []]) [] md
             eq_refl ltac:(discriminate) eq_refl ltac:(discriminate) H).
  reflexivity.
Defined.

(** C10 (confirmed).  A tree with an accepted root tag and no
    [meta-data/book-info] is read as the empty record: no field set, no
    pages, [is_empty] true. *)
Theorem no_book_info_empty (E : env) (r r' : element) (fl : list string) :
  mem (tag r) acbf_tags = true -> remove_ns r = Ok r' -> find_el bi_path r' = None ->
  extract E r fl = Ok empty_md /\ pages empty_md = [] /\ is_empty empty_md = true /\
  empty_md = mkMd None None None None [] None None None None None None None None []
                  None None None [] [] [] [] [] [] None None None None None true.
Proof.
  intros Hm Hr Hbi. unfold extract. rewrite Hm, Hr. simpl. unfold bi_path in Hbi.
  rewrite Hbi. repeat split.
Qed.

Lemma no_book_info_empty_witness :
  extract env0 no_book_info_tree [] = Ok empty_md.
Proof.
  apply (no_book_info_empty env0 no_book_info_tree
           (Elem "ACBF" [] None [Elem "meta-data" [] None [Elem "publish-info" [] None []]]) []);
    reflexivity.
Defined.



Lemma forallb_upd_nth (P : element -> bool) g l :
  (forall x, P x = true -> P (g x) = true) ->
  forall i, forallb P l = true -> forallb P (upd_nth i g l) = true.
Proof.
  intros Hg. induction l as [|x l IH]; intros [|i] H; simpl in *; auto;
    apply andb_true_iff in H as [H1 H2]; apply andb_true_iff; split; auto.
Qed.

Lemma all_tags_upd_at P q f e :
  (forall e, all_tags P e = true -> all_tags P (f e) = true) ->
  all_tags P e = true -> all_tags P (upd_at q f e) = true.
Proof.
  intros Hf. revert e. induction q as [|i q IH]; intros [t a x k] H; simpl; auto.
  simpl in H. apply andb_true_iff in H as [H1 H2]. rewrite H1. simpl.
  apply forallb_upd_nth; auto.
Qed.

Lemma tag_kids_forallb (P : element -> bool) (h : string -> bool) l :
  (forall c, P c = h (tag c)) -> forall g i, (forall x, tag (g x) = tag x) ->
  forallb P (upd_nth i g l) = forallb P l.
Proof.
  intros HP g. induction l as [|x l IH]; intros [|i] Hg; simpl; auto.
  - rewrite !HP, Hg. reflexivity.
  - rewrite IH; auto.
Qed.

Lemma fresh_shape_upd q f r :
  fresh_shape r = true -> safe_edit q f -> fresh_shape (upd_at q f r) = true.
Proof.
  intros Hr (Htag & Hgood & Hne & Hmd & Hbi).
  destruct q as [|i q]; [contradiction|].
  destruct r as [t a x k]. unfold fresh_shape in *. simpl in *.
  apply andb_true_iff in Hr as [Hr Hg]. apply andb_true_iff in Hr as [Ht Hk].
  apply String.eqb_eq in Ht; subst t.
  destruct k as [|m [|m2 k]]; try discriminate.
  assert (Hm : all_tags good_tag m = true)
    by (simpl in Hg; destruct (all_tags good_tag m); auto).
  destruct i as [|i]; simpl;
    [|destruct i; simpl in *; rewrite Hk, Hm; reflexivity].
  rewrite (all_tags_upd_at _ _ _ _ Hgood Hm), !andb_true_r.
  destruct q as [|j q]; simpl; [apply Hmd; auto|].
  destruct m as [mt ma mx mk]. unfold md_ok in *. simpl in *.
  apply andb_true_iff in Hk as [Hmt Hmk]. rewrite Hmt. simpl.
  destruct mk as [|b rest]; [discriminate|].
  apply andb_true_iff in Hmk as [Hb Hrest].
  destruct j as [|j]; simpl.
  - rewrite Hrest, andb_true_r.
    destruct q as [|l q]; simpl; [apply Hbi; auto|].
    destruct b as [bt ba bx bk]. unfold bi_ok in *. simpl in *.
    apply andb_true_iff in Hb as [Hbt Hbk]. rewrite Hbt. simpl.
    rewrite (tag_kids_forallb _ (fun t => negb (mem t ["coverpage"; "languages"])));
      auto. intros y. apply tag_upd_at. auto.
  - rewrite Hb. simpl.
    rewrite (tag_kids_forallb _ (fun t => negb (String.eqb t "book-info"))); auto.
    intros y. apply tag_upd_at. auto.
Qed.

Lemma all_tags_eq P e :
  all_tags P e = P (tag e) && forallb (all_tags P) (kids e).
Proof. destruct e; reflexivity. Qed.

Lemma all_tags_new_element t txt attrs :
  all_tags good_tag (new_element t txt attrs) = good_tag t.
Proof. simpl. apply andb_true_r. Qed.

Lemma forallb_incl {A} (P : A -> bool) l l' :
  incl l' l -> forallb P l = true -> forallb P l' = true.
Proof.
  intros Hi H. apply forallb_forall. intros x Hx.
  apply (proj1 (forallb_forall P l) H). auto.
Qed.

Lemma safe_append q c :
  q <> [] -> (q = [0] -> not_tagged "book-info" c = true) ->
  (q = [0; 0] -> bi_kid_ok c = true) -> all_tags good_tag c = true ->
  safe_edit q (append c).
Proof.
  intros Hne Hmd Hbi Hg. repeat split; auto.
  - intros e. apply tag_append.
  - intros [t a x k] He. simpl in *. apply andb_true_iff in He as [H1 H2].
    rewrite H1, forallb_app, H2. simpl. rewrite Hg. reflexivity.
  - intros Hq [t a x k] He. unfold md_ok in *. simpl in *.
    apply andb_true_iff in He as [H1 H2]. rewrite H1.
    destruct k as [|b rest]; [discriminate|]. simpl.
    apply andb_true_iff in H2 as [H2 H3]. specialize (Hmd Hq).
    rewrite H2, forallb_app, H3. simpl. unfold not_tagged in *. rewrite Hmd. reflexivity.
  - intros Hq [t a x k] He. unfold bi_ok in *. simpl in *.
    apply andb_true_iff in He as [H1 H2]. specialize (Hbi Hq).
    rewrite H1, forallb_app, H2. simpl. unfold bi_kid_ok in *. rewrite Hbi. reflexivity.
Qed.

Lemma safe_shrink q f :
  q <> [] -> q <> [0] -> (forall e, tag (f e) = tag e) ->
  (forall e, incl (kids (f e)) (kids e)) -> safe_edit q f.
Proof.
  intros Hne H0 Ht Hk. split; [|split; [|split; [|split]]]; auto.
  - intros e He. rewrite all_tags_eq in *. rewrite Ht.
    apply andb_true_iff in He as [H1 H2]. rewrite H1.
    eapply forallb_incl; eauto.
  - intros Hq e He. unfold bi_ok in *. rewrite Ht.
    apply andb_true_iff in He as [H1 H2]. rewrite H1.
    eapply forallb_incl; eauto.
Qed.

Lemma incl_filter' {A} (f : A -> bool) l : incl (filter f l) l.
Proof. intros x Hx. apply filter_In in Hx. tauto. Qed.

Lemma incl_remove_nth {A} (l : list A) : forall j, incl (remove_nth j l) l.
Proof.
  induction l as [|x l IH]; intros j y Hy; destruct j as [|j]; simpl in *; auto.
  destruct Hy; auto. right. apply (IH j). auto.
Qed.

Lemma incl_scan_remove : forall l, incl (scan_remove l) l.
Proof.
  fix IH 1. intros [|s l] y Hy; simpl in Hy; [contradiction|].
  destruct (scan_marked s).
  - destruct l as [|s2 l]; [contradiction|].
    destruct Hy as [Hy|Hy]; [subst; right; left; reflexivity|].
    right; right. exact (IH l y Hy).
  - destruct Hy as [Hy|Hy]; [left; auto|]. right. exact (IH l y Hy).
Qed.

Lemma kids_edited v attrs ca e : kids (edited v attrs ca e) = kids e.
Proof.
  unfold edited. assert (H : kids (set_text (Some v) (if ca then set_attrib [] e else e)) = kids e)
    by (destruct ca, e; reflexivity).
  revert H. generalize (set_text (Some v) (if ca then set_attrib [] e else e)).
  induction attrs as [|[k w] attrs IH]; simpl; intros x Hx; auto.
  apply IH. destruct x; simpl in *; auto.
Qed.

Lemma fresh_shape_inv r : fresh_shape r = true ->
  exists a x ma mx ba bx bks rest,
    r = Elem "ACBF" a x [Elem "meta-data" ma mx (Elem "book-info" ba bx bks :: rest)] /\
    forallb bi_kid_ok bks = true /\ forallb (not_tagged "book-info") rest = true /\
    all_tags good_tag r = true.
Proof.
  intros H. destruct r as [t a x k]. unfold fresh_shape in H. simpl in H.
  apply andb_true_iff in H as [H Hg]. apply andb_true_iff in H as [Ht Hk].
  apply String.eqb_eq in Ht; subst.
  destruct k as [|[mt ma mx mk] [|]]; try discriminate.
  unfold md_ok in Hk. simpl in Hk. apply andb_true_iff in Hk as [Hmt Hmk].
  apply String.eqb_eq in Hmt; subst.
  destruct mk as [|[bt ba bx bk] rest]; [discriminate|].
  apply andb_true_iff in Hmk as [Hb Hr]. unfold bi_ok in Hb. simpl in Hb.
  apply andb_true_iff in Hb as [Hbt Hbk]. apply String.eqb_eq in Hbt; subst.
  exists a, x, ma, mx, ba, bx, bk, rest. repeat split; auto.
Qed.

Lemma fresh_find r : fresh_shape r = true ->
  find ["meta-data"] r = Some [0] /\ find bi_path r = Some [0; 0].
Proof.
  intros H. destruct (fresh_shape_inv r H) as (a & x & ma & mx & ba & bx & bks & rest & -> & _).
  split; reflexivity.
Qed.

Lemma tag_ok_in path t : path_ok path = true -> In t path ->
  good_tag t = true /\ mem t ["coverpage"; "languages"] = false.
Proof.
  intros Hp Hin. unfold path_ok in Hp. apply andb_true_iff in Hp as [_ Hp].
  pose proof (proj1 (forallb_forall _ _) Hp t Hin) as Ht. unfold tag_ok in Ht.
  apply andb_true_iff in Ht as [H1 H2]. split; auto. destruct (mem t _); auto.
Qed.

Lemma path_ok_prefix a b c : path_ok [a; b; c] = true -> path_ok [a; b] = true.
Proof.
  unfold path_ok. cbn [hd forallb].
  destruct (String.eqb a "meta-data"), (tag_ok a), (tag_ok b), (tag_ok c); auto.
Qed.

Lemma fold_res_inv {A B} (I : A -> Prop) (f : A -> B -> res A) l :
  (forall a x a', In x l -> I a -> f a x = Ok a' -> I a') ->
  forall a a', I a -> fold_res f l a = Ok a' -> I a'.
Proof.
  intros Hf. induction l as [|x l IH]; intros a a' Ha H; simpl in H.
  - inversion H; subst; auto.
  - destruct (f a x) as [b|m] eqn:Hb; simpl in H; [|discriminate].
    apply (IH (fun a x a' Hx => Hf a x a' (or_intror Hx)) b a'); auto.
    eapply Hf; eauto. left; auto.
Qed.

Lemma length_find P r q : find P r = Some q -> length q = length P.
Proof. intros H. apply find_in, findall_valid in H. tauto. Qed.

Lemma add_path_fresh path r r' q :
  fresh_shape r = true -> path_ok path = true -> add_path path r = Ok (r', q) ->
  fresh_shape r' = true /\ length q = length path.
Proof.
  intros Hr Hp H. unfold add_path in H.
  destruct (fold_res _ _ _) as [r1|m] eqn:Hf; simpl in H; [|discriminate].
  destruct (find path r1) as [q1|] eqn:Hq; inversion H; subst; clear H.
  split; [|eapply length_find; eauto].
  pose proof Hp as Hp'. unfold path_ok in Hp'. apply andb_true_iff in Hp' as [Hhd _].
  destruct path as [|p0 path]; [discriminate|]. simpl in Hhd.
  apply String.eqb_eq in Hhd; subst p0.
  refine (fold_res_inv (fun a => fresh_shape a = true) _ _ _ r r' Hr Hf).
  intros a i a' Hi Ha Hs. apply in_seq in Hi as [_ Hi]. simpl in Hi.
  destruct (find (firstn (S i) ("meta-data" :: path)) a) eqn:Hfa;
    [inversion Hs; subst; auto|].
  destruct i as [|i].
  - simpl in Hfa. rewrite (proj1 (fresh_find a Ha)) in Hfa. discriminate.
  - destruct (find (firstn (S i) ("meta-data" :: path)) a) as [q0|] eqn:Hq0;
      [|discriminate]. inversion Hs; subst; clear Hs.
    pose proof (length_find _ _ _ Hq0) as Hl. rewrite length_firstn in Hl.
    simpl length in Hl.
    assert (Hin : In (nth (S i) ("meta-data" :: path) "") ("meta-data" :: path))
      by (apply nth_In; simpl; lia).
    apply fresh_shape_upd; auto. apply safe_append.
    + intros ->. simpl in Hl. lia.
    + intros ->. simpl in Hl. assert (i = 0) by lia. subst i.
      unfold not_tagged. simpl. destruct path as [|p1 path]; [reflexivity|].
      simpl. destruct (String.eqb p1 "book-info") eqn:Hb; [|reflexivity].
      apply String.eqb_eq in Hb; subst p1.
      change (find bi_path a = None) in Hfa.
      rewrite (proj2 (fresh_find a Ha)) in Hfa. discriminate.
    + intros _. destruct (tag_ok_in _ _ Hp Hin) as [_ Hm].
      change (negb (mem (nth (S i) ("meta-data" :: path) "") ["coverpage"; "languages"]) = true).
      rewrite Hm. reflexivity.
    + rewrite all_tags_new_element. apply (tag_ok_in _ _ Hp Hin).
Qed.

Lemma get_or_create_fresh path r r' q :
  fresh_shape r = true -> path_ok path = true -> get_or_create path r = Ok (r', q) ->
  fresh_shape r' = true /\ length q = length path.
Proof.
  intros Hr Hp H. unfold get_or_create in H.
  destruct (find path r) eqn:Hf.
  - inversion H; subst. split; auto. eapply length_find; eauto.
  - eapply add_path_fresh; eauto.
Qed.

Lemma fresh_fold {A} (g : element -> A -> element) l :
  (forall r x, In x l -> fresh_shape r = true -> fresh_shape (g r x) = true) ->
  forall r, fresh_shape r = true -> fresh_shape (fold_left g l r) = true.
Proof.
  induction l as [|x l IH]; intros Hg r Hr; simpl; auto.
  apply IH; [intros; apply Hg; simpl; auto | apply Hg; simpl; auto].
Qed.

Lemma shrink_fresh q f r :
  2 <= length q -> (forall e, tag (f e) = tag e) ->
  (forall e, incl (kids (f e)) (kids e)) ->
  fresh_shape r = true -> fresh_shape (upd_at q f r) = true.
Proof.
  intros Hl Ht Hk Hr. apply fresh_shape_upd; auto. apply safe_shrink; auto;
    intros ->; simpl in Hl; lia.
Qed.

Lemma append_bi_fresh c r :
  bi_kid_ok c = true -> all_tags good_tag c = true ->
  fresh_shape r = true -> fresh_shape (upd_at [0; 0] (append c) r) = true.
Proof.
  intros Hc Hg Hr. apply fresh_shape_upd; auto.
  apply safe_append; auto; discriminate.
Qed.

Lemma append_deep_fresh q c r :
  3 <= length q -> all_tags good_tag c = true ->
  fresh_shape r = true -> fresh_shape (upd_at q (append c) r) = true.
Proof.
  intros Hl Hg Hr. apply fresh_shape_upd; auto.
  apply safe_append; auto; intros ->; simpl in Hl; lia.
Qed.

Lemma add_bi_fresh t txt attrs r :
  mem t ["coverpage"; "languages"] = false -> good_tag t = true ->
  fresh_shape r = true -> fresh_shape (add_element [0; 0] t txt attrs r) = true.
Proof.
  intros Hm Hg Hr. apply append_bi_fresh; auto.
  - change (negb (mem t ["coverpage"; "languages"]) = true). rewrite Hm. reflexivity.
  - rewrite all_tags_new_element. auto.
Qed.

Lemma add_deep_fresh q t txt attrs r :
  3 <= length q -> good_tag t = true ->
  fresh_shape r = true -> fresh_shape (add_element q t txt attrs r) = true.
Proof.
  intros Hl Hg Hr. apply append_deep_fresh; auto. rewrite all_tags_new_element. auto.
Qed.

Lemma tag_set k v e : tag (set k v e) = tag e.
Proof. destruct e; reflexivity. Qed.

Lemma kids_set k v e : kids (set k v e) = kids e.
Proof. destruct e; reflexivity. Qed.

Lemma modify_element_fresh path v attrs ca r r' :
  path_ok path = true -> length path = 3 -> fresh_shape r = true ->
  modify_element path v attrs ca r = Ok r' -> fresh_shape r' = true.
Proof.
  intros Hp Hl Hr H.
  destruct path as [|a [|b [|c [|d path]]]]; simpl in Hl; try lia. clear Hl.
  unfold modify_element in H. simpl removelast in H.
  pose proof (path_ok_prefix _ _ _ Hp) as Hp2.
  assert (Hc : In c [a; b; c]) by (simpl; auto).
  destruct (tag_ok_in _ _ Hp Hc) as [Hcg Hcm].
  destruct (get_or_create [a; b] r) as [[r1 pp]|m] eqn:Hg; simpl in H; [|discriminate].
  destruct (get_or_create_fresh _ _ _ _ Hr Hp2 Hg) as [Hr1 Hpp]. simpl in Hpp.
  destruct (find [a; b; c] r1) as [q|] eqn:Hf; inversion H; subst; clear H.
  - apply shrink_fresh; auto.
    + rewrite (length_find _ _ _ Hf). simpl. lia.
    + exact (tag_edited v attrs ca).
    + intros e. change (incl (kids (edited v attrs ca e)) (kids e)).
      rewrite kids_edited. apply incl_refl.
  - apply shrink_fresh.
    + rewrite length_app. simpl. lia.
    + exact (tag_edited v attrs ca).
    + intros e. change (incl (kids (edited v attrs ca e)) (kids e)).
      rewrite kids_edited. apply incl_refl.
    + apply fresh_shape_upd; auto. apply safe_append.
      * intros ->. discriminate.
      * intros ->. discriminate.
      * intros _. change (negb (mem c ["coverpage"; "languages"]) = true).
        rewrite Hcm. reflexivity.
      * simpl. rewrite Hcg. reflexivity.
Qed.

Lemma clear_element_fresh path r :
  length path = 3 -> fresh_shape r = true -> fresh_shape (clear_element path r) = true.
Proof.
  intros Hl Hr. unfold clear_element.
  destruct (find (removelast path) r) as [q|] eqn:Hf; auto.
  apply shrink_fresh; auto.
  - rewrite (length_find _ _ _ Hf).
    destruct path as [|a [|b [|c [|d path]]]]; simpl in *; lia.
  - intros [t a x k]. reflexivity.
  - intros [t a x k]. apply incl_filter'.
Qed.

Lemma author_element_ok p role l a :
  author_element p role l = Some a -> bi_kid_ok a = true /\ all_tags good_tag a = true.
Proof.
  unfold author_element. intros H.
  repeat match type of H with
         | context [match ?x with (_, _) => _ end] => destruct x
         end.
  destruct (negb _); [discriminate|]. inversion H; subst; clear H.
  split; [reflexivity|].
  repeat match goal with
         | |- context [match ?o with Some _ => _ | None => _ end] => destruct o
         end; reflexivity.
Qed.

Lemma step_credits_fresh E md r :
  fresh_shape r = true -> fresh_shape (step_credits E md [0; 0] r) = true.
Proof.
  intros Hr. unfold step_credits.
  apply fresh_fold; [|apply clear_element_fresh; auto].
  intros r0 c _ H0. destruct (credit_activity E c) as [act l].
  destruct (author_element _ _ _) as [a|] eqn:Ha; auto.
  destruct (author_element_ok _ _ _ _ Ha). apply append_bi_fresh; auto.
Qed.

Lemma step_series_fresh md r r' :
  fresh_shape r = true -> step_series md [0; 0] r = Ok r' -> fresh_shape r' = true.
Proof.
  intros Hr H. unfold step_series in H.
  destruct (truthy (series md)); [|inversion H; subst; auto].
  match type of H with bind ?m _ = _ => destruct m as [r1|msg] eqn:Hm end;
    cbn [bind] in H; [|discriminate].
  assert (Hr1 : fresh_shape r1 = true).
  { repeat match type of Hm with
           | context [if ?b then _ else _] => destruct b
           end; try discriminate Hm; injection Hm as <-; auto.
    apply (shrink_fresh [0; 0] (fun b => set_kids (filter (fun c =>
             negb (String.eqb (tag c) "sequence" && opt_eqb (text c) (issue md))) (kids b)) b));
      auto.
    - intros [t a x k]; reflexivity.
    - intros [t a x k]; apply incl_filter'. }
  inversion H; subst. apply append_bi_fresh; auto;
    destruct (truthy (volume md)); reflexivity.
Qed.

Lemma step_title_fresh md r :
  fresh_shape r = true -> fresh_shape (step_title md [0; 0] r) = true.
Proof.
  intros Hr. unfold step_title.
  destruct (title md) as [t|]; auto. destruct (truthy (Some t)); auto.
  apply append_bi_fresh.
  - reflexivity.
  - reflexivity.
  - apply fresh_fold; auto. intros r0 q Hq H0.
    apply findall_valid in Hq as [Hl _].
    apply shrink_fresh; auto.
    + rewrite Hl. simpl. lia.
    + intros e. destruct (get "lang" e) as [l|]; [destruct (String.eqb l "en")|];
        destruct e; reflexivity.
    + intros e. destruct (get "lang" e) as [l|]; [destruct (String.eqb l "en")|];
        destruct e; simpl; try apply incl_refl; apply incl_nil_l.
Qed.

Lemma step_genres_fresh E md r r' md1 :
  fresh_shape r = true -> step_genres E md [0; 0] r = Ok (r', md1) ->
  fresh_shape r' = true.
Proof.
  intros Hr H. unfold step_genres in H.
  match type of H with bind ?m _ = _ => destruct m as [r2|msg] eqn:Hm end;
    cbn [bind] in H; [|discriminate]. injection H as <- _.
  refine (fold_res_inv (fun a => fresh_shape a = true) _ _ _ _ _ _ Hm).
  - intros a g a' _ Ha Hs.
    destruct (mem (genre_key g) allow_genres); [|injection Hs as <-; auto].
    destruct (old_match E _ _) as [m|msg]; cbn [bind] in Hs; [|discriminate].
    destruct (0 <? m)%Z; injection Hs as <-; apply add_bi_fresh; auto.
  - apply clear_element_fresh; auto.
Qed.

Lemma step_description_fresh md r r' :
  fresh_shape r = true -> step_description md [0; 0] r = Ok r' -> fresh_shape r' = true.
Proof.
  intros Hr H. unfold step_description in H.
  destruct (description md) as [d|]; [|injection H as <-; auto].
  destruct (truthy (Some d)); [|injection H as <-; auto].
  destruct (existsb _ _); [injection H as <-; auto|].
  assert (Hr1 : fresh_shape (upd_at [0; 0] (append (Elem "annotation" [] None
            (map (fun t => new_element "p" t []) (split_sep d (String "010" (String "010" "")))))) r)
            = true).
  { apply append_bi_fresh; [reflexivity| |exact Hr].
    generalize (split_sep d (String "010" (String "010" ""))) as l.
    induction l; simpl in *; auto. }
  destruct (language md) as [l|]; [|injection H as <-; auto].
  destruct (truthy (Some l)); [|injection H as <-; auto].
  match type of H with bind ?m _ = _ => destruct m as [[r2 q]|msg] eqn:Hm end;
    cbn [bind] in H; [|discriminate]. injection H as <-.
  destruct (List.find _ _) as [q0|] in Hm.
  - destruct (list_eq_dec _ _ _); [|discriminate]. injection Hm as <- <-.
    apply shrink_fresh.
    + simpl; rewrite ?length_app; simpl; lia.
    + apply tag_set.
    + intros y. rewrite kids_set. apply incl_refl.
    + apply shrink_fresh; auto.
      * intros [t a x k]; reflexivity.
      * intros [t a x k]; apply incl_remove_nth.
  - injection Hm as <- <-. apply shrink_fresh; auto.
    + simpl; rewrite ?length_app; simpl; lia.
    + apply tag_set.
    + intros y. rewrite kids_set. apply incl_refl.
Qed.

Lemma step_web_links_fresh md dbname r :
  fresh_shape r = true -> fresh_shape (step_web_links md [0; 0] dbname r) = true.
Proof.
  intros Hr. unfold step_web_links.
  destruct (web_links md) as [|w ws]; auto.
  apply fresh_fold.
  - intros r0 x _ H0. apply add_bi_fresh; auto.
  - apply shrink_fresh; auto.
    + intros [t a x k]; reflexivity.
    + intros [t a x k]; apply incl_filter'.
Qed.

Lemma step_maturity_fresh md r :
  fresh_shape r = true -> fresh_shape (step_maturity md [0; 0] r) = true.
Proof.
  intros Hr. unfold step_maturity.
  destruct (maturity_rating md); auto. destruct (truthy _); auto.
  destruct (existsb _ _); auto. apply add_bi_fresh; auto.
Qed.

Lemma step_tags_fresh md r r' :
  fresh_shape r = true -> step_tags md r = Ok r' -> fresh_shape r' = true.
Proof.
  intros Hr H. unfold step_tags in H. destruct (tags md); [injection H as <-; auto|].
  eapply modify_element_fresh; [| |exact Hr|exact H]; reflexivity.
Qed.

Lemma step_container_fresh items name r r' :
  tag_ok name = true ->
  fresh_shape r = true -> step_container items name r = Ok r' -> fresh_shape r' = true.
Proof.
  intros Hn Hr H. unfold step_container in H.
  destruct items as [|c cs]; [injection H as <-; auto|].
  destruct (get_or_create (bi_child name) r) as [[r1 q]|msg] eqn:Hg;
    cbn [bind] in H; [|discriminate]. injection H as <-.
  assert (Hp : path_ok (bi_child name) = true)
    by (unfold path_ok; simpl; rewrite Hn; reflexivity).
  destruct (get_or_create_fresh _ _ _ _ Hr Hp Hg) as [Hr1 Hq].
  simpl in Hq.
  apply fresh_fold.
  - intros r0 x _ H0. apply add_deep_fresh; [lia|reflexivity|exact H0].
  - apply add_deep_fresh; [lia|reflexivity|].
    apply (shrink_fresh q clear r1); [lia| | |exact Hr1].
    + intros [t a x k]; reflexivity.
    + intros [t a x k]; apply incl_nil_l.
Qed.

Lemma step_ids_fresh md dbname r :
  fresh_shape r = true -> fresh_shape (step_ids md [0; 0] dbname r) = true.
Proof.
  intros Hr. unfold step_ids.
  destruct (_ || _); auto.
  destruct (fold_left _ _ _) as [ai ase].
  assert (Hr1 : fresh_shape (if truthy (issue_id md) && ai
              then add_element [0; 0] "databaseref" (str_or (issue_id md) "")
                     [("type", "IssueID"); ("dbname", dbname)] r
              else r) = true)
    by (destruct (_ && ai); auto; apply add_bi_fresh; auto).
  destruct (truthy (series_id md) && ase); auto. apply add_bi_fresh; auto.
Qed.

Lemma step_identifier_fresh md r r' :
  fresh_shape r = true -> step_identifier md r = Ok r' -> fresh_shape r' = true.
Proof.
  intros Hr H. unfold step_identifier in H. destruct (truthy _); [|injection H as <-; auto].
  eapply modify_element_fresh; [| |exact Hr|exact H]; reflexivity.
Qed.

Lemma step_publisher_fresh md r r' :
  fresh_shape r = true -> step_publisher md r = Ok r' -> fresh_shape r' = true.
Proof.
  intros Hr H. unfold step_publisher in H.
  destruct (truthy (publisher md)).
  - destruct (truthy (imprint md));
      (eapply modify_element_fresh; [| |exact Hr|exact H]; reflexivity).
  - injection H as <-. apply clear_element_fresh; auto.
Qed.

Lemma step_date_fresh md r r' :
  fresh_shape r = true -> step_date md r = Ok r' -> fresh_shape r' = true.
Proof.
  intros Hr H. unfold step_date in H. destruct (year md) as [y|]; [|injection H as <-; auto].
  destruct (y =? 0)%Z; [injection H as <-; auto|].
  eapply modify_element_fresh; [| |exact Hr|exact H]; reflexivity.
Qed.

Lemma step_notes_fresh md r r' :
  fresh_shape r = true -> step_notes md r = Ok r' -> fresh_shape r' = true.
Proof.
  intros Hr H. unfold step_notes in H.
  destruct (notes md) as [n|]; [|injection H as <-; auto].
  destruct (truthy _); [|injection H as <-; auto].
  destruct (get_or_create _ r) as [[r1 q]|msg] eqn:Hg; cbn [bind] in H; [|discriminate].
  injection H as <-.
  destruct (get_or_create_fresh ["meta-data"; "document-info"; "history"] _ _ _ Hr eq_refl Hg)
    as [Hr1 Hq]. simpl in Hq.
  apply fresh_fold.
  - intros r0 x _ H0. apply add_deep_fresh; [lia|reflexivity|exact H0].
  - apply (shrink_fresh q clear r1); [lia| | |exact Hr1].
    + intros [t a x k]; reflexivity.
    + intros [t a x k]; apply incl_nil_l.
Qed.

Lemma step_scan_fresh md r r' :
  fresh_shape r = true -> step_scan md r = Ok r' -> fresh_shape r' = true.
Proof.
  intros Hr H. unfold step_scan in H.
  destruct (scan_info md) as [si|]; [|injection H as <-; auto].
  destruct (truthy _); [|injection H as <-; auto].
  destruct (get_or_create _ r) as [[r1 q]|msg] eqn:Hg; cbn [bind] in H; [|discriminate].
  injection H as <-.
  destruct (get_or_create_fresh ["meta-data"; "document-info"; "source"] _ _ _ Hr eq_refl Hg)
    as [Hr1 Hq]. simpl in Hq.
  apply add_deep_fresh; [lia|reflexivity|].
  apply (shrink_fresh q (fun e => set_kids (scan_remove (kids e)) e) r1); [lia| | |exact Hr1].
  - intros [t a x k]; reflexivity.
  - intros [t a x k]; apply incl_scan_remove.
Qed.



Lemma find_kid_cover l : forallb bi_kid_ok l = true -> forall i, find_kid "coverpage" i l = None.
Proof.
  induction l as [|c l IH]; intros H i; simpl; auto.
  simpl in H. apply andb_true_iff in H as [H1 H2].
  unfold bi_kid_ok in H1. destruct (String.eqb (tag c) "coverpage") eqn:Hc; auto.
  apply String.eqb_eq in Hc. rewrite Hc in H1. discriminate.
Qed.

Lemma fold_body md (g : element -> nat * page_md -> element) l a x M bk :
  (forall r i p, In (i, p) l -> g r (i, p) = upd_at [1] (append (page_el md i p)) r) ->
  fold_left g l (Elem "ACBF" a x [M; Elem "body" [] None bk])
  = Elem "ACBF" a x [M; Elem "body" [] None (bk ++ map (fun '(i, p) => page_el md i p) l)%list].
Proof.
  revert bk. induction l as [|[i p] l IH]; intros bk Hg; simpl.
  - rewrite app_nil_r. reflexivity.
  - rewrite Hg by (left; reflexivity).
    change (upd_at [1] (append (page_el md i p)) (Elem "ACBF" a x [M; Elem "body" [] None bk]))
      with (Elem "ACBF" a x [M; Elem "body" [] None (bk ++ [page_el md i p])%list]).
    rewrite IH by (intros; apply Hg; right; assumption).
    rewrite <- app_assoc. reflexivity.
Qed.

Lemma step_pages_shape md a x ma mx ba bx bks rest p0 ps R md' :
  forallb bi_kid_ok bks = true ->
  sort_pages (pages md) = p0 :: ps ->
  step_pages md [0; 0]
    (Elem "ACBF" a x [Elem "meta-data" ma mx (Elem "book-info" ba bx bks :: rest)])
    = Ok (R, md') ->
  R = Elem "ACBF" a x
        [Elem "meta-data" ma mx (Elem "book-info" ba bx (bks ++ [page_el md 0 p0]) :: rest);
         Elem "body" [] None (map (fun '(i, p) => page_el md i p) (indexed 1 ps))].
Proof.
  intros Hb Hs H. unfold step_pages in H.
  set (M := Elem "meta-data" ma mx (Elem "book-info" ba bx bks :: rest)) in H.
  assert (Hg : get_or_create ["body"] (Elem "ACBF" a x [M])
               = Ok (Elem "ACBF" a x [M; Elem "body" [] None []], [1])) by reflexivity.
  rewrite Hg in H. cbn [bind] in H.
  assert (Hk : kids_at (Elem "ACBF" a x [M; Elem "body" [] None []]) [0; 0] = bks) by reflexivity.
  rewrite Hk, (find_kid_cover bks Hb) in H.
  assert (Hk1 : kids_at (Elem "ACBF" a x [M; Elem "body" [] None []]) [1] = []) by reflexivity.
  cbn beta iota zeta in H. rewrite Hk1, Hs in H. cbn [fold_left indexed Nat.eqb pd_get] in H.
  injection H as HR _. rewrite <- HR.
  match goal with |- fold_left ?g _ _ = _ => rewrite (fold_body md g) end.
  - reflexivity.
  - intros r i p Hi. apply in_indexed in Hi as [Hi _].
    destruct i as [|i]; [lia|]. reflexivity.
Qed.

Lemma step_genres_pages E md bi r r' md1 :
  step_genres E md bi r = Ok (r', md1) -> pages md1 = pages md.
Proof.
  unfold step_genres. intros H.
  match type of H with bind ?m _ = _ => destruct m end; cbn [bind] in H; [|discriminate].
  injection H as _ <-.
  destruct (manga md) as [m|]; [destruct (startswith _ _)|]; try reflexivity.
  destruct md; reflexivity.
Qed.

Ltac peel H :=
  match type of H with
  | bind ?m _ = _ =>
      let Hm := fresh "Hm" in
      destruct m as [?|?] eqn:Hm; cbn [bind] in H; [|discriminate]
  end.

Ltac peel2 H :=
  match type of H with
  | bind ?m _ = _ =>
      let Hm := fresh "Hm" in
      destruct m as [[? ?]|?] eqn:Hm; cbn [bind] in H; [|discriminate]
  end.

Lemma merge_prefix E md R md2 :
  merge E md None = Ok (R, md2) ->
  exists md1 r19 r20, fresh_shape r19 = true /\ step_pages md1 [0; 0] r19 = Ok (r20, md2)
    /\ R = indent r20 /\ pages md1 = pages md.
Proof.
  intros H. unfold merge in H. cbn [init_root bind] in H.
  set (r0 := Elem "ACBF" [("xmlns", ns_url)] None []) in H.
  assert (Hg : get_or_create bi_path r0 =
    Ok (Elem "ACBF" [("xmlns", ns_url)] None
          [Elem "meta-data" [] None [Elem "book-info" [] None []]], [0; 0])) by reflexivity.
  rewrite Hg in H. cbn [bind] in H.
  assert (F1 : fresh_shape (Elem "ACBF" [("xmlns", ns_url)] None
          [Elem "meta-data" [] None [Elem "book-info" [] None []]]) = true) by reflexivity.
  pose proof (step_credits_fresh E md _ F1) as F2.
  peel H. pose proof (step_series_fresh _ _ _ F2 Hm) as F3.
  pose proof (step_title_fresh md _ F3) as F4.
  peel2 H. pose proof (step_genres_fresh _ _ _ _ _ F4 Hm0) as F5.
  pose proof (step_genres_pages _ _ _ _ _ _ Hm0) as Hp.
  peel H. pose proof (step_description_fresh _ _ _ F5 Hm1) as F6.
  pose proof (step_web_links_fresh m (str_or (data_origin m) "Unknown") _ F6) as F7.
  pose proof (step_maturity_fresh m _ F7) as F8.
  peel H. pose proof (step_tags_fresh _ _ _ F8 Hm2) as F9.
  peel H. pose proof (step_container_fresh _ "characters" _ _ eq_refl F9 Hm3) as F10.
  peel H. pose proof (step_container_fresh _ "teams" _ _ eq_refl F10 Hm4) as F11.
  peel H. pose proof (step_container_fresh _ "locations" _ _ eq_refl F11 Hm5) as F12.
  pose proof (step_ids_fresh m (str_or (data_origin m) "Unknown") _ F12) as F13.
  peel2 H. destruct (get_or_create_fresh ["meta-data"; "publish-info"] _ _ _ F13 eq_refl Hm6) as [F14 _].
  peel H. pose proof (step_identifier_fresh _ _ _ F14 Hm7) as F15.
  peel H. pose proof (step_publisher_fresh _ _ _ F15 Hm8) as F16.
  peel H. pose proof (step_date_fresh _ _ _ F16 Hm9) as F17.
  peel H. pose proof (step_notes_fresh _ _ _ F17 Hm10) as F18.
  peel H. pose proof (step_scan_fresh _ _ _ F18 Hm11) as F19.
  peel2 H. injection H as <- <-.
  do 3 eexists. split; [exact F19|]. split; [exact Hm12|]. split; [reflexivity|exact Hp].
Qed.

Lemma flat_map_indexed_snd {A B} (h : A -> list B) (l : list A) : forall k,
  flat_map (fun '(_, c) => h c) (indexed k l) = flat_map h l.
Proof. induction l as [|x l IH]; intros k; simpl; auto. rewrite IH. reflexivity. Qed.

Lemma map_indexed_snd {A B} (h : A -> B) (l : list A) : forall k,
  map (fun '(_, c) => h c) (indexed k l) = map h l.
Proof. induction l as [|x l IH]; intros k; simpl; auto. rewrite IH. reflexivity. Qed.

Lemma findall_el_nil e : findall_el [] e = [e].
Proof. reflexivity. Qed.

Lemma findall_el_cons s P e :
  findall_el (s :: P) e = flat_map (findall_el P) (filter (tagged s) (kids e)).
Proof.
  destruct e as [t a x k]. unfold findall_el. simpl findall.
  rewrite flat_map_flat_map.
  transitivity (flat_map (fun '(_, c) =>
     if String.eqb (tag c) s then
       flat_map (fun p => match get_at c p with Some c0 => [c0] | None => [] end) (findall P c)
     else []) (indexed 0 k)).
  - apply flat_map_ext_in. intros [i c] Hi.
    apply in_indexed in Hi as [_ Hi]. rewrite Nat.sub_0_r in Hi.
    destruct (String.eqb (tag c) s); [|reflexivity].
    rewrite flat_map_concat_map, map_map, <- flat_map_concat_map.
    apply flat_map_ext_in. intros p _. simpl. rewrite Hi. reflexivity.
  - rewrite flat_map_indexed_snd. clear.
    induction k as [|c k IH]; simpl; auto. unfold tagged at 1.
    destruct (String.eqb (tag c) s); simpl; rewrite IH; reflexivity.
Qed.

Lemma find_el_hd P e : find_el P e = hd_error (findall_el P e).
Proof.
  unfold find_el, find, findall_el.
  assert (Hv := findall_valid P e).
  destruct (findall P e) as [|p ps]; [reflexivity|].
  destruct (Hv p (or_introl eq_refl)) as [_ [c Hc]]. simpl. rewrite Hc. reflexivity.
Qed.

Lemma filter_map_tag (g : element -> element) s l :
  (forall c, tag (g c) = tag c) ->
  filter (tagged s) (map g l) = map g (filter (tagged s) l).
Proof.
  intros Hg. induction l as [|c l IH]; simpl; auto.
  rewrite IH. unfold tagged. rewrite Hg. destruct (String.eqb (tag c) s); reflexivity.
Qed.

Lemma filter_tagged_nil s l : forallb (not_tagged s) l = true -> filter (tagged s) l = [].
Proof.
  induction l as [|c l IH]; simpl; auto. intros H.
  apply andb_true_iff in H as [H1 H2]. unfold not_tagged, tagged in *.
  destruct (String.eqb (tag c) s); [discriminate|auto].
Qed.

Lemma filter_tagged_all s l : forallb (tagged s) l = true -> filter (tagged s) l = l.
Proof.
  induction l as [|c l IH]; simpl; auto. intros H.
  apply andb_true_iff in H as [H1 H2]. rewrite H1, IH; auto.
Qed.

Lemma flat_map_singleton {A} (l : list A) : flat_map (fun c => [c]) l = l.
Proof. induction l; simpl; f_equal; auto. Qed.

(** [ET.indent] keeps tags, attributes and children. *)

Lemma tag_indent n e : tag (indent_at n e) = tag e.
Proof. destruct e as [t a x [|c k]]; reflexivity. Qed.

Lemma attrib_indent n e : attrib (indent_at n e) = attrib e.
Proof. destruct e as [t a x [|c k]]; reflexivity. Qed.

Lemma kids_indent n e : kids (indent_at n e) = map (indent_at (S n)) (kids e).
Proof. destruct e as [t a x [|c k]]; reflexivity. Qed.

Lemma all_tags_indent P : forall e n, all_tags P (indent_at n e) = all_tags P e.
Proof.
  fix IH 1. intros [t a x k] n.
  rewrite (all_tags_eq P (indent_at n _)), tag_indent, kids_indent.
  simpl. f_equal. induction k as [|c k IHk]; simpl; auto.
  rewrite IH, IHk. reflexivity.
Qed.

Lemma find_el_one_indent t n e :
  find_el [t] (indent_at n e) = option_map (indent_at (S n)) (find_el [t] e).
Proof.
  rewrite !find_el_hd, !findall_el_cons, kids_indent.
  rewrite filter_map_tag by apply tag_indent.
  destruct (filter (tagged t) (kids e)); reflexivity.
Qed.

Lemma href_of_indent n e : href_of (indent_at n e) = href_of e.
Proof.
  unfold href_of. rewrite find_el_one_indent.
  destruct (find_el ["image"] e); simpl; auto. unfold get. rewrite attrib_indent. reflexivity.
Qed.

(** Removing namespaces from a tree without prefixed tags. *)

Lemma remove_ns_good : forall e, all_tags good_tag e = true -> remove_ns e = Ok e.
Proof.
  fix IH 1. intros [t a x k] H. simpl in H. apply andb_true_iff in H as [Ht Hk].
  simpl. unfold local_tag. unfold good_tag in Ht. destruct (startswith t "{"); [discriminate|].
  cbn [bind].
  assert (Hgo : (fix go (l : list element) : res (list element) :=
     match l with
     | [] => Ok []
     | c :: l' => let* c' := remove_ns c in let* l'' := go l' in Ok (c' :: l'')
     end) k = Ok k).
  { induction k as [|c k IHk]; [reflexivity|]. simpl in Hk.
    apply andb_true_iff in Hk as [Hc Hk]. rewrite (IH c Hc). cbn [bind].
    rewrite IHk by exact Hk. reflexivity. }
  rewrite Hgo. reflexivity.
Qed.

(** The page elements of a fresh merge. *)

Lemma tag_page_el md i p : tag (page_el md i p) = if i =? 0 then "coverpage" else "page".
Proof.
  unfold page_el, add_page_edit. destruct (i =? 0), (truthy (Some (bookmark p))); reflexivity.
Qed.

Lemma href_of_page_el md i p : href_of (page_el md i p) = Some (filename p).
Proof.
  unfold page_el, add_page_edit. destruct (i =? 0), (truthy (Some (bookmark p))); reflexivity.
Qed.

Lemma all_tags_page_el md i p : all_tags good_tag (page_el md i p) = true.
Proof.
  unfold page_el, add_page_edit. destruct (i =? 0), (truthy (Some (bookmark p))); reflexivity.
Qed.

Lemma filename_read_page fl i e : filename (read_page fl i e) = str_or (href_of e) "".
Proof. unfold read_page, href_of. destruct (find_el ["image"] e); reflexivity. Qed.

(** The stable sort by [display_index]. *)

Lemma in_insert_page x q : forall l, In q (insert_page x l) <-> q = x \/ In q l.
Proof.
  induction l as [|y l IH]; simpl.
  - intuition.
  - destruct (display_index x <=? display_index y)%Z; simpl; [intuition|].
    rewrite IH. intuition.
Qed.

Lemma in_sort_pages q : forall l, In q (sort_pages l) <-> In q l.
Proof.
  induction l as [|x l IH]; simpl; [tauto|]. rewrite in_insert_page, IH. intuition.
Qed.

Lemma sort_pages_head l p0 ps :
  sort_pages l = p0 :: ps ->
  In p0 l /\ forall q, In q l -> (display_index p0 <= display_index q)%Z.
Proof.
  revert p0 ps. induction l as [|x l IH]; intros p0 ps H; [discriminate|].
  split.
  - apply (in_sort_pages p0). rewrite H. left; reflexivity.
  - simpl in H. intros q Hq.
    destruct (sort_pages l) as [|y s] eqn:Hs.
    + simpl in H. injection H as <- _. destruct Hq as [<-|Hq]; [lia|].
      apply (in_sort_pages q) in Hq. rewrite Hs in Hq. contradiction.
    + destruct (IH y s eq_refl) as [_ Hy]. simpl in H.
      destruct (display_index x <=? display_index y)%Z eqn:Hxy.
      * injection H as <- _. apply Z.leb_le in Hxy.
        destruct Hq as [<-|Hq]; [lia|]. specialize (Hy q Hq). lia.
      * injection H as <- _. apply Z.leb_gt in Hxy.
        destruct Hq as [<-|Hq]; [lia|]. apply Hy, Hq.
Qed.

(** A tree with no [languages] element in its [book-info] is read. *)

Lemma read_book_ok E root bi fl :
  kids_named "languages" bi = [] ->
  exists md, read_book E root bi fl = Ok md /\ pages md = read_pages root bi fl.
Proof.
  intros Hl. unfold read_book. rewrite Hl.
  repeat match goal with
         | |- context [match ?x with (_, _) => _ end] => destruct x
         end.
  cbn [bind]. eexists. split; reflexivity.
Qed.

Lemma findall_el_indent s P n e :
  findall_el (s :: P) (indent_at n e)
  = flat_map (fun c => findall_el P (indent_at (S n) c)) (filter (tagged s) (kids e)).
Proof.
  rewrite findall_el_cons, kids_indent, filter_map_tag by apply tag_indent.
  rewrite flat_map_concat_map, map_map, <- flat_map_concat_map. reflexivity.
Qed.

Lemma merge_shape E md R md2 p0 ps :
  merge E md None = Ok (R, md2) -> sort_pages (pages md) = p0 :: ps ->
  exists a x ma mx ba bx bks rest md1,
    forallb bi_kid_ok bks = true /\ forallb (not_tagged "book-info") rest = true /\
    all_tags good_tag (Elem "ACBF" a x [Elem "meta-data" ma mx (Elem "book-info" ba bx bks :: rest)]) = true /\
    R = indent (fresh_tree a x ma mx ba bx bks rest md1 p0 ps).
Proof.
  intros H Hs. destruct (merge_prefix E md R md2 H) as (md1 & r19 & r20 & F & Hp & -> & Hpg).
  destruct (fresh_shape_inv r19 F) as (a & x & ma & mx & ba & bx & bks & rest & -> & Hb & Hr & Hg).
  rewrite <- Hpg in Hs.
  rewrite (step_pages_shape md1 a x ma mx ba bx bks rest p0 ps r20 md2 Hb Hs Hp).
  exists a, x, ma, mx, ba, bx, bks, rest, md1. auto.
Qed.

Lemma bi_kids_not t l :
  mem t ["coverpage"; "languages"] = true -> forallb bi_kid_ok l = true ->
  forallb (not_tagged t) l = true.
Proof.
  intros Ht. induction l as [|c l IH]; simpl; auto. intros H.
  apply andb_true_iff in H as [H1 H2]. rewrite IH by exact H2. unfold bi_kid_ok in H1.
  unfold not_tagged. destruct (String.eqb (tag c) t) eqn:Hc; [|reflexivity].
  apply String.eqb_eq in Hc. rewrite Hc, Ht in H1. discriminate.
Qed.

Lemma tagged_page_el md i p s :
  tagged s (page_el md i p) = String.eqb (if i =? 0 then "coverpage" else "page") s.
Proof. unfold tagged. rewrite tag_page_el. reflexivity. Qed.

Section Fresh_tree.

Variables (a : list (string * string)) (x : option string)
  (ma : list (string * string)) (mx : option string)
  (ba : list (string * string)) (bx : option string)
  (bks rest : list element) (md1 : metadata) (p0 : page_md) (ps : list page_md).

Hypothesis Hb : forallb bi_kid_ok bks = true.

Hypothesis Hr : forallb (not_tagged "book-info") rest = true.

Local Abbreviation BI := (fresh_bi ba bx bks md1 p0).

Local Abbreviation T := (fresh_tree a x ma mx ba bx bks rest md1 p0 ps).

Lemma fresh_coverpage :
  findall_el (bi_child "coverpage") (indent T) = [indent_at 3 (page_el md1 0 p0)].
Proof.
  change (bi_child "coverpage") with ["meta-data"; "book-info"; "coverpage"].
  unfold indent, fresh_tree, fresh_bi. rewrite findall_el_indent. simpl filter. cbn [flat_map].
  rewrite app_nil_r, findall_el_indent. cbn [kids]. simpl filter.
  rewrite filter_tagged_nil by exact Hr. cbn [flat_map]. rewrite app_nil_r.
  rewrite findall_el_indent. cbn [kids].
  rewrite filter_app, filter_tagged_nil by (apply bi_kids_not; [reflexivity|exact Hb]).
  cbn [filter app]. rewrite tagged_page_el. reflexivity.
Qed.

Lemma fresh_body_pages :
  findall_el ["body"; "page"] (indent T)
  = map (indent_at 2) (map (fun '(i, p) => page_el md1 i p) (indexed 1 ps)).
Proof.
  unfold indent, fresh_tree. rewrite findall_el_indent. simpl filter. cbn [flat_map].
  rewrite app_nil_r, findall_el_indent. cbn [kids].
  rewrite filter_tagged_all.
  - rewrite flat_map_concat_map. simpl findall_el.
    (* [findall_el []] gives the element itself *)
    induction (map (fun '(i, p) => page_el md1 i p) (indexed 1 ps)); simpl; f_equal; auto.
  - assert (H : forall k, forallb (tagged "page")
                  (map (fun '(i, p) => page_el md1 i p) (indexed (S k) ps)) = true).
    { induction ps as [|q ps' IH]; intros k; simpl; auto.
      rewrite tagged_page_el, IH. reflexivity. }
    apply H.
Qed.

Lemma fresh_find_bi :
  find_el bi_path (indent T) = Some (indent_at 2 BI).
Proof.
  rewrite find_el_hd. unfold bi_path, indent, fresh_tree. rewrite findall_el_indent. simpl filter.
  cbn [flat_map]. rewrite app_nil_r, findall_el_indent. cbn [kids]. simpl filter.
  rewrite filter_tagged_nil by exact Hr. cbn [flat_map]. rewrite app_nil_r. reflexivity.
Qed.

Lemma fresh_languages : kids_named "languages" (indent_at 2 BI) = [].
Proof.
  unfold kids_named. change (filter (tagged "languages") (kids (indent_at 2 BI)) = []).
  rewrite kids_indent, filter_map_tag by apply tag_indent. unfold fresh_bi. cbn [kids].
  rewrite filter_app, filter_tagged_nil by (apply bi_kids_not; [reflexivity|exact Hb]).
  cbn [filter app]. rewrite tagged_page_el. reflexivity.
Qed.

Lemma fresh_coverpage_of_bi :
  find_el ["coverpage"] (indent_at 2 BI) = Some (indent_at 3 (page_el md1 0 p0)).
Proof.
  rewrite find_el_hd, findall_el_cons, kids_indent, filter_map_tag by apply tag_indent.
  unfold fresh_bi. cbn [kids].
  rewrite filter_app, filter_tagged_nil by (apply bi_kids_not; [reflexivity|exact Hb]).
  cbn [filter app]. rewrite tagged_page_el. reflexivity.
Qed.

Lemma fresh_body_hrefs :
  map href_of (findall_el ["body"; "page"] (indent T)) = map (fun q => Some (filename q)) ps.
Proof.
  rewrite fresh_body_pages, !map_map, <- (map_indexed_snd (fun q => Some (filename q)) ps 1).
  apply map_ext. intros [i q]. rewrite href_of_indent, href_of_page_el. reflexivity.
Qed.

Lemma forallb_page_els k :
  forallb (all_tags good_tag) (map (fun '(i, p) => page_el md1 i p) (indexed k ps)) = true.
Proof.
  revert k. induction ps as [|q ps' IH]; intros k; simpl; auto.
  rewrite all_tags_page_el, IH. reflexivity.
Qed.

Hypothesis Hg : all_tags good_tag
  (Elem "ACBF" a x [Elem "meta-data" ma mx (Elem "book-info" ba bx bks :: rest)]) = true.

Lemma fresh_all_tags : all_tags good_tag T = true.
Proof.
  unfold fresh_tree, fresh_bi. simpl in Hg |- *. rewrite forallb_app, forallb_page_els. simpl.
  rewrite all_tags_page_el. rewrite !andb_true_r in Hg |- *.
  cbn [andb]. rewrite andb_true_r. exact Hg.
Qed.

Lemma fresh_extract E fl :
  exists md', extract E (indent T) fl = Ok md' /\
              option_map filename (hd_error (pages md')) = Some (filename p0).
Proof.
  unfold extract.
  assert (Hmem : mem (tag (indent T)) acbf_tags = true) by (unfold indent; rewrite tag_indent; reflexivity).
  rewrite Hmem, remove_ns_good by (unfold indent; rewrite all_tags_indent; exact fresh_all_tags).
  cbn [bind]. rewrite (fresh_find_bi : find_el ["meta-data"; "book-info"] (indent T) = _).
  destruct (read_book_ok E (indent T) (indent_at 2 BI) fl fresh_languages) as [md' [Hrb Hpg]].
  rewrite Hrb. exists md'. split; [reflexivity|].
  rewrite Hpg. unfold read_pages, page_nodes. rewrite fresh_coverpage_of_bi.
  cbn [indexed map hd_error option_map].
  rewrite filename_read_page, href_of_indent, href_of_page_el. reflexivity.
Qed.

End Fresh_tree.

(** C1 (confirmed).  Merging a normalized record (display indices
    non-negative, every index-0 page named [cover.jpg]) that has a page of
    index 0 named [cover.jpg] into no document gives a tree with exactly one
    [book-info/coverpage], whose image [href] is [cover.jpg]; the
    [body/page] elements are the remaining pages in order; and extracting
    that tree with any file list gives a page list whose first entry has
    filename [cover.jpg]. *)
Theorem merge_cover_round_trip (E : env) (md : metadata) (R : element) (md2 : metadata)
  (p : page_md) :
  merge E md None = Ok (R, md2) ->
  In p (pages md) -> display_index p = 0%Z -> filename p = "cover.jpg" ->
  (forall q, In q (pages md) -> (0 <= display_index q)%Z) ->
  (forall q, In q (pages md) -> display_index q = 0%Z -> filename q = "cover.jpg") ->
  (exists c, findall_el (bi_child "coverpage") R = [c] /\ href_of c = Some "cover.jpg") /\
  map href_of (findall_el ["body"; "page"] R)
    = map (fun q => Some (filename q)) (tl (sort_pages (pages md))) /\
  (forall fl, exists md', extract E R fl = Ok md' /\
     option_map filename (hd_error (pages md')) = Some "cover.jpg").
Proof.
  intros Hm Hp H0 Hf Hnn Hone.
  destruct (sort_pages (pages md)) as [|p0 ps] eqn:Hs.
  { apply (in_sort_pages p) in Hp. rewrite Hs in Hp. contradiction. }
  destruct (sort_pages_head _ _ _ Hs) as [Hin Hmin].
  assert (Hc : filename p0 = "cover.jpg").
  { apply Hone; [exact Hin|]. specialize (Hmin p Hp). specialize (Hnn p0 Hin). lia. }
  destruct (merge_shape E md R md2 p0 ps Hm Hs)
    as (a & x & ma & mx & ba & bx & bks & rest & md1 & Hb & Hr & Hg & ->).
  split; [|split].
  - eexists. split; [apply fresh_coverpage; assumption|].
    rewrite href_of_indent, href_of_page_el, Hc. reflexivity.
  - apply fresh_body_hrefs.
  - intros fl. rewrite <- Hc. apply fresh_extract; assumption.
Qed.

Lemma merge_cover_round_trip_witness :
  exists R md2, merge env0 md_cover None = Ok (R, md2) /\
    (exists c, findall_el (bi_child "coverpage") R = [c] /\ href_of c = Some "cover.jpg") /\
    map href_of (findall_el ["body"; "page"] R) = [Some "p1.jpg"].
Proof.
  destruct (merge env0 md_cover None) as [[R md2]|m] eqn:Hm; [| vm_compute in Hm; discriminate Hm].
  exists R, md2. split; [reflexivity|].
  destruct (merge_cover_round_trip env0 md_cover R md2 (mkPage "cover.jpg" 0 0 "" "") Hm
              (or_introl eq_refl) eq_refl eq_refl) as [Hc [Hb _]].
  - intros q Hq. simpl in Hq. destruct Hq as [<-|[<-|[]]]; simpl; lia.
  - intros q Hq. simpl in Hq. destruct Hq as [<-|[<-|[]]]; simpl; [reflexivity|discriminate].
  - split; [exact Hc|]. rewrite Hb. reflexivity.
Defined.

(** ** Further properties of the adapter *)

Lemma str_app_assoc (a b c : string) : (a ++ b) ++ c = a ++ (b ++ c).
Proof. induction a; simpl; congruence. Qed.

Lemma str_app_nil_r (a : string) : a ++ "" = a.
Proof. induction a; simpl; congruence. Qed.

Lemma str_length_app (a b : string) : String.length (a ++ b) = String.length a + String.length b.
Proof. induction a; simpl; congruence. Qed.

Lemma substring_app_r (a b : string) :
  substring (String.length a) (String.length b) (a ++ b) = b.
Proof.
  induction a; simpl; [|exact IHa].
  induction b; simpl; congruence.
Qed.

Lemma substring_full (s : string) : substring 0 (String.length s) s = s.
Proof. induction s; simpl; congruence. Qed.

Lemma substring_length n m (s : string) :
  n + m <= String.length s -> String.length (substring n m s) = m.
Proof.
  revert n m; induction s as [|c s IH]; intros n m H; simpl in *.
  - assert (n = 0 /\ m = 0) as [-> ->] by lia. reflexivity.
  - destruct n as [|n].
    + destruct m as [|m]; simpl; [reflexivity|]. f_equal. apply IH. lia.
    + apply IH. lia.
Qed.

Lemma prefix_app (p s : string) :
  String.prefix p s = true -> s = p ++ substring (String.length p) (String.length s - String.length p) s.
Proof.
  revert s; induction p as [|c p IH]; intros s H; simpl.
  - rewrite Nat.sub_0_r. symmetry; apply substring_full.
  - destruct s as [|c' s]; simpl in H; [discriminate|].
    destruct (ascii_dec c c'); [subst|discriminate].
    simpl. f_equal. apply IH, H.
Qed.

Lemma prefix_length (p s : string) : String.prefix p s = true -> String.length p <= String.length s.
Proof.
  revert s; induction p as [|c p IH]; intros s H; simpl; [lia|].
  destruct s as [|c' s]; simpl in H; [discriminate|].
  destruct (ascii_dec c c'); [|discriminate]. simpl. apply IH in H. lia.
Qed.

Lemma split_sep_aux_nonempty sep fuel s cur : split_sep_aux sep fuel s cur <> [].
Proof.
  revert s cur; induction fuel; intros s cur; simpl; [discriminate|].
  destruct s; [discriminate|]. destruct (String.prefix sep _); [discriminate|apply IHfuel].
Qed.

Lemma join_cons sep x l : l <> [] -> join sep (x :: l) = x ++ sep ++ join sep l.
Proof. destruct l; [congruence|reflexivity]. Qed.

Lemma join_split_aux sep : sep <> "" -> forall fuel s cur,
  String.length s < fuel -> join sep (split_sep_aux sep fuel s cur) = cur ++ s.
Proof.
  intros Hsep fuel; induction fuel as [|fuel IH]; intros s cur Hl; [lia|].
  simpl. destruct s as [|c s'].
  - simpl. symmetry; apply str_app_nil_r.
  - destruct (String.prefix sep (String c s')) eqn:Hp.
    + rewrite join_cons by apply split_sep_aux_nonempty.
      rewrite IH.
      * pose proof (prefix_app _ _ Hp) as Hq. simpl in Hq |- *.
        f_equal. exact (eq_sym Hq).
      * apply prefix_length in Hp.
        destruct sep; [congruence|].
        rewrite substring_length by lia. simpl in *. lia.
    + rewrite IH by (simpl in Hl; lia).
      rewrite str_app_assoc. reflexivity.
Qed.

Lemma join_split s sep : sep <> "" -> join sep (split_sep s sep) = s.
Proof. intros H. unfold split_sep. rewrite join_split_aux; auto. Qed.

Lemma split_sep_nonempty s sep : split_sep s sep <> [].
Proof. apply split_sep_aux_nonempty. Qed.

Lemma filter_length_full {A} (p : A -> bool) l :
  length (filter p l) = length l <-> forall x, In x l -> p x = true.
Proof.
  induction l as [|x l IH]; simpl; [split; [contradiction|reflexivity]|].
  pose proof (filter_length_le p l) as Hle.
  destruct (p x) eqn:Hx; simpl; split.
  - intros H y [<-|Hy]; [exact Hx|]. apply IH; [lia|exact Hy].
  - intros H. f_equal. apply IH. auto.
  - intros H. lia.
  - intros H. rewrite H in Hx by auto. discriminate.
Qed.

Lemma indexed_in {A} (l : list A) : forall k i c,
  nth_error l i = Some c -> In (k + i, c) (indexed k l).
Proof.
  induction l as [|x l IH]; intros k i c Hi; [destruct i; discriminate|].
  destruct i as [|i]; simpl in Hi |- *.
  - left. rewrite Nat.add_0_r. congruence.
  - right. replace (k + S i) with (S k + i) by lia. apply IH, Hi.
Qed.

Lemma anno_kids_same (l : list string) :
  (length (filter (fun '(i, t) => opt_eqb (Some t) (nth i (map text (map (fun t => new_element "p" t []) l)) None))
                  (indexed 0 l)) =? length l) = true
  <-> Forall (fun t => t <> "") l.
Proof.
  rewrite Nat.eqb_eq. rewrite <- (indexed_length l 0).
  rewrite filter_length_full, Forall_forall. split.
  - intros H t Ht.
    destruct (In_nth_error _ _ Ht) as [i Hi].
    assert (In (i, t) (indexed 0 l)) as Hin.
    { exact (indexed_in l 0 i t Hi). }
    specialize (H _ Hin). simpl in H.
    erewrite nth_error_nth in H by (rewrite map_map; apply map_nth_error, Hi).
    unfold text, new_element in H. simpl in H.
    destruct (String.eqb t "") eqn:Ht0; [discriminate|].
    apply String.eqb_neq in Ht0. exact Ht0.
  - intros H [i t] Hin. apply in_indexed in Hin as [_ Hi].
    rewrite Nat.sub_0_r in Hi.
    erewrite nth_error_nth by (rewrite map_map; apply map_nth_error, Hi).
    unfold text, new_element. simpl.
    apply nth_error_In in Hi. apply H, String.eqb_neq in Hi. rewrite Hi. apply String.eqb_refl.
Qed.

Lemma flat_map_p_text (l : list string) : Forall (fun t => t <> "") l ->
  flat_map (fun a => match text a with
                     | Some s => if truthy (Some s) then [s] else []
                     | None => [] end) (map (fun t => new_element "p" t []) l) = l.
Proof.
  induction 1 as [|t l Ht _ IH]; [reflexivity|].
  simpl. apply String.eqb_neq in Ht. rewrite Ht. simpl. rewrite Ht. simpl. f_equal. exact IH.
Qed.

(** The annotation [_convert_metadata_to_xml] writes for a description
    [d] (one [p] per paragraph) is recognised by the duplicate test
    exactly when no paragraph is empty, and then reads back as [d]. *)
Theorem annotation_round_trip (d : string) (a : list (string * string)) :
  let ann := Elem "annotation" a None
               (map (fun t => new_element "p" t []) (split_sep d (String "010" (String "010" "")))) in
  (anno_same d ann = true <-> Forall (fun t => t <> "") (split_sep d para_sep)) /\
  (Forall (fun t => t <> "") (split_sep d para_sep) -> annotation_to_string ann = Some d).
Proof.
  cbv zeta. change (String "010" (String "010" "")) with para_sep.
  pose proof (split_sep_nonempty d para_sep) as Hne.
  set (S := split_sep d para_sep) in *.
  assert (Hk : has_kids (Elem "annotation" a None (map (fun t => new_element "p" t []) S)) = true)
    by (unfold has_kids; cbn [kids]; destruct S; [congruence|reflexivity]).
  split.
  - unfold anno_same. rewrite Hk. cbn [kids].
    change (split_sep d para_sep) with S.
    rewrite !length_map, Nat.eqb_refl. apply anno_kids_same.
  - intros H. unfold annotation_to_string. rewrite Hk. cbn [kids].
    rewrite flat_map_p_text by exact H.
    destruct S eqn:HS; [congruence|].
    rewrite <- HS. f_equal. apply join_split. discriminate.
Qed.

Lemma lower_char_idem c : lower_char (lower_char c) = lower_char c.
Proof. destruct c as [[] [] [] [] [] [] [] []]; reflexivity. Qed.

Lemma casefold_idem s : casefold (casefold s) = casefold s.
Proof. induction s; simpl; [reflexivity|]. rewrite lower_char_idem, IHs. reflexivity. Qed.

Lemma mem_app x l1 l2 : mem x (l1 ++ l2) = mem x l1 || mem x l2.
Proof. induction l1; simpl; [reflexivity|]. rewrite IHl1, orb_assoc. reflexivity. Qed.

(** [supports_credit_role] ignores case, and every role it accepts other
    than [other] is written by the merge with an activity of its own, not
    [Other]. *)
Theorem supported_roles_mapped (E : env) (c : credit) :
  supports_credit_role E (casefold (role c)) = supports_credit_role E (role c) /\
  (supports_credit_role E (role c) = true -> casefold (role c) <> "other" ->
   fst (credit_activity E c) <> "Other").
Proof.
  unfold supports_credit_role. rewrite casefold_idem. split; [reflexivity|].
  intros H Ho. unfold credit_activity.
  unfold parseable_credits in H. rewrite !mem_app in H.
  set (r := casefold (role c)) in *.
  repeat match goal with
  | |- context [if mem r ?l then _ else _] =>
      destruct (mem r l) eqn:?; [cbn; discriminate|]
  end.
  repeat match goal with
  | Hf : mem r ?l = false |- _ => rewrite ?Hf in H
  end.
  cbn [orb mem] in *.
  destruct (String.eqb_spec r "adapter"); [discriminate|].
  destruct (String.eqb_spec r "photographer"); [discriminate|].
  destruct (String.eqb_spec r "assistant editor"); [discriminate|].
  destruct (String.eqb_spec r "other"); [contradiction|discriminate].
Qed.

Lemma insert_page_sorted x l : Sorted di_le l -> Sorted di_le (insert_page x l).
Proof.
  induction 1 as [|y l Hs IH Hhd]; simpl; [repeat constructor|].
  destruct (display_index x <=? display_index y)%Z eqn:Hxy.
  - constructor; [constructor; assumption|]. constructor. apply Z.leb_le, Hxy.
  - apply Z.leb_gt in Hxy. constructor; [exact IH|].
    destruct l as [|z l]; simpl; [constructor; unfold di_le; lia|].
    inversion Hhd; subst.
    destruct (display_index x <=? display_index z)%Z; constructor; unfold di_le in *; lia.
Qed.

Lemma insert_page_perm x l : Permutation (x :: l) (insert_page x l).
Proof.
  induction l as [|y l IH]; simpl; [reflexivity|].
  destruct (display_index x <=? display_index y)%Z; [reflexivity|].
  rewrite perm_swap. constructor. exact IH.
Qed.

Lemma insert_page_filter (k : Z) x l :
  filter (fun q => (display_index q =? k)%Z) (insert_page x l) =
  filter (fun q => (display_index q =? k)%Z) (x :: l).
Proof.
  induction l as [|y l IH]; simpl; [reflexivity|].
  destruct (display_index x <=? display_index y)%Z eqn:Hxy; [reflexivity|].
  apply Z.leb_gt in Hxy. cbn [filter]. rewrite IH. cbn [filter].
  destruct (display_index x =? k)%Z eqn:Hx, (display_index y =? k)%Z eqn:Hy; try reflexivity.
  apply Z.eqb_eq in Hx, Hy. lia.
Qed.

(** [sorted(metadata.pages, key=lambda x: x.display_index)] orders the
    pages by display index, keeps each page, and keeps pages with equal
    display indices in their original order. *)
Theorem sort_pages_sorted_stable (l : list page_md) :
  Sorted di_le (sort_pages l) /\ Permutation l (sort_pages l) /\
  forall k, filter (fun q => (display_index q =? k)%Z) (sort_pages l) =
            filter (fun q => (display_index q =? k)%Z) l.
Proof.
  induction l as [|x l (IHs & IHp & IHf)]; simpl; [repeat constructor|].
  split; [apply insert_page_sorted, IHs|]. split.
  - rewrite IHp at 1. apply insert_page_perm.
  - intros k. rewrite insert_page_filter. cbn [filter]. rewrite IHf. reflexivity.
Qed.

Lemma file_index_aux f l : forall k acc,
  (~ In f l -> fold_left (fun acc '(i, g) => if String.eqb f g then Some i else acc)
                         (indexed k l) acc = acc) /\
  (In f l -> exists j, fold_left (fun acc '(i, g) => if String.eqb f g then Some i else acc)
                                 (indexed k l) acc = Some (k + j) /\
                       nth_error l j = Some f /\ forall m, j < m -> nth_error l m <> Some f).
Proof.
  induction l as [|x l IH]; intros k acc; simpl; [split; [reflexivity|contradiction]|].
  destruct (in_dec string_dec f l) as [Hin|Hnin].
  - split; [tauto|]. intros _.
    destruct (proj2 (IH (S k) (if String.eqb f x then Some k else acc)) Hin) as (j & Hf & Hj & Hm).
    exists (S j). rewrite Hf. split; [f_equal; lia|]. split; [exact Hj|].
    intros [|m] Hlt; [lia|]. apply Hm. lia.
  - rewrite (proj1 (IH (S k) _) Hnin). split.
    + intros H. destruct (String.eqb_spec f x); [subst; exfalso; apply H; left; reflexivity|reflexivity].
    + intros [<-|H]; [|contradiction]. exists 0. rewrite String.eqb_refl, Nat.add_0_r.
      split; [reflexivity|]. split; [reflexivity|].
      intros [|m] Hlt Hm; [lia|]. apply Hnin. simpl in Hm. apply nth_error_In in Hm. exact Hm.
Qed.

(** The archive index of a page read from the tree is the last position of
    its file name in the archive's page list, and its own display index
    when the name is not in the list. *)
Theorem read_page_archive_index (fl : list string) (i : nat) (pg : element) :
  let p := read_page fl i pg in
  (In (filename p) fl -> exists j, archive_index p = Z.of_nat j /\
      nth_error fl j = Some (filename p) /\ forall m, j < m -> nth_error fl m <> Some (filename p)) /\
  (~ In (filename p) fl -> archive_index p = Z.of_nat i).
Proof.
  cbv zeta. unfold read_page, file_index. cbn [filename archive_index].
  set (f := match find_el ["image"] pg with Some im => str_or (get "href" im) "" | None => "" end).
  destruct (file_index_aux f fl 0 None) as [Hn Hi]. split.
  - intros H. destruct (Hi H) as (j & -> & Hj & Hm). exists j. auto.
  - intros H. rewrite (Hn H). reflexivity.
Qed.

Lemma find_none_iff {A} (p : A -> bool) l :
  (forall x, In x l -> p x = false) -> List.find p l = None.
Proof.
  induction l as [|x l IH]; intros H; simpl; [reflexivity|].
  rewrite (H x (or_introl eq_refl)). apply IH. intros y Hy. apply H. right. exact Hy.
Qed.

(** [remove_tags] calls the archive's [remove_file] only when [has_tags]
    holds, and then on the located [.acbf] entry, answering what the
    archive answers; otherwise it answers [False] and leaves the archive
    untouched.  When the archive had a single [.acbf] entry and the removal
    succeeds and drops that name, [has_tags] no longer holds afterwards. *)
Theorem remove_tags_spec (remove_file : archive -> string -> bool * archive)
  (a a' : archive) (ok : bool) :
  remove_tags remove_file a = (ok, a') ->
  (snd (has_tags a) = false -> ok = false /\ a' = a) /\
  (snd (has_tags a) = true ->
   exists f, locate a = Some f /\ remove_file a f = (ok, a') /\
     (ok = true ->
      get_filename_list a' = filter (fun n => negb (String.eqb n f)) (get_filename_list a) ->
      length (filter (fun n => endswith n ".acbf") (get_filename_list a)) = 1 ->
      has_tags a' = (None, false))).
Proof.
  unfold remove_tags. intros Hr.
  destruct (has_tags a) as [[f|] h] eqn:Hh; [destruct h|]; cbn [snd].
  - assert (Hl : locate a = Some f) by (unfold has_tags in Hh; destruct (locate a); congruence).
    split; [discriminate|]. intros _. exists f. split; [exact Hl|]. split; [exact Hr|].
    intros _ Hnames H1. unfold has_tags, locate. rewrite Hnames.
    rewrite find_none_iff; [reflexivity|].
    intros x Hx. apply filter_In in Hx as [Hx Hxf].
    destruct (endswith x ".acbf") eqn:He; [|reflexivity].
    unfold locate in Hl. apply find_some in Hl as [Hfin Hfe].
    assert (In x (filter (fun n => endswith n ".acbf") (get_filename_list a))) as Hx1
      by (apply filter_In; auto).
    assert (In f (filter (fun n => endswith n ".acbf") (get_filename_list a))) as Hf1
      by (apply filter_In; auto).
    destruct (filter (fun n => endswith n ".acbf") (get_filename_list a)) as [|y [|z l]];
      [contradiction| |discriminate].
    destruct Hx1 as [<-|[]], Hf1 as [<-|[]].
    rewrite String.eqb_refl in Hxf. discriminate.
  - injection Hr as <- <-. split; [auto|discriminate].
  - injection Hr as <- <-. split; [auto|].
    intros Ht. exfalso. unfold has_tags in Hh. destruct (locate a); congruence.
Qed.

Lemma remove_tags_spec_witness :
  remove_tags drop_entry archive_one_acbf = (true, snd (drop_entry archive_one_acbf "x.acbf")) /\
  has_tags (snd (drop_entry archive_one_acbf "x.acbf")) = (None, false).
Proof.
  split; [reflexivity|].
  destruct (remove_tags_spec drop_entry archive_one_acbf
              (snd (drop_entry archive_one_acbf "x.acbf")) true eq_refl) as [_ H].
  destruct (H eq_refl) as [f [Hf [_ Hn]]].
  vm_compute in Hf. injection Hf as <-.
  apply Hn; reflexivity.
Defined.

Lemma all_space_indentation m : all_space (indentation m) = true.
Proof. unfold indentation. simpl. induction m; simpl; auto. Qed.

(** [ET.indent] changes only texts that are missing or blank (in elements
    with children), and indenting twice gives the same tree as once. *)
Theorem indent_only_blank_text : forall (e : element) (n : nat),
  blank_erased (indent_at n e) = blank_erased e /\ indent_at n (indent_at n e) = indent_at n e.
Proof.
  fix IH 1. intros [t a x k] n.
  assert (Hk : map blank_erased (map (indent_at (S n)) k) = map blank_erased k /\
               map (indent_at (S n)) (map (indent_at (S n)) k) = map (indent_at (S n)) k).
  { induction k as [|c k IHk]; [split; reflexivity|].
    destruct (IH c (S n)) as [H1 H2]. destruct IHk as [H3 H4].
    simpl. rewrite H1, H2, H3, H4. split; reflexivity. }
  destruct Hk as [Hb Hi].
  destruct k as [|c k]; [split; reflexivity|].
  change (indent_at n (Elem t a x (c :: k))) with
    (Elem t a (match x with
               | Some s => if all_space s then Some (indentation (S n)) else x
               | None => Some (indentation (S n))
               end) (map (indent_at (S n)) (c :: k))).
  split.
  - cbn [blank_erased]. f_equal; [|exact Hb].
    destruct x as [s|]; [destruct (all_space s) eqn:Hs|]; rewrite ?all_space_indentation, ?Hs; reflexivity.
  - change (map (indent_at (S n)) (c :: k)) with (indent_at (S n) c :: map (indent_at (S n)) k).
    cbn [indent_at]. f_equal.
    + destruct x as [s|]; [destruct (all_space s) eqn:Hs|]; rewrite ?all_space_indentation, ?Hs; reflexivity.
    + exact Hi.
Qed.

Lemma prefix_nil s : String.prefix "" s = true.
Proof. destruct s; reflexivity. Qed.

Lemma split_ws_aux_words : forall s cur, Forall (fun w => w <> "") (split_ws_aux s cur).
Proof.
  induction s as [|c s IH]; intros cur; simpl.
  - destruct (String.eqb_spec cur ""); repeat constructor; assumption.
  - destruct (is_space c); [|apply IH].
    apply Forall_app. split; [|apply IH].
    destruct (String.eqb_spec cur ""); repeat constructor; assumption.
Qed.

(** [add_credit] writes an [author] for a person exactly when the name has
    a word; the author's activity and language are the ones passed, and
    the extraction reads the name back as its first three words. *)
Theorem author_round_trip (person role : string) (lang : option string) :
  (author_element person role lang = None <-> split_ws person = []) /\
  forall a, author_element person role lang = Some a ->
    tag a = "author" /\ get "activity" a = Some role /\ get "lang" a = lang /\
    author_name a = Some (join " " (firstn 3 (split_ws person))).
Proof.
  pose proof (split_ws_aux_words person "") as Hw. unfold split_ws in *.
  unfold author_element, split_ws.
  destruct (split_ws_aux person "") as [|w1 [|w2 [|w3 rest]]];
    [split; [tauto|discriminate]| | |];
    repeat match goal with H : Forall _ (_ :: _) |- _ => inversion H; subst; clear H end;
    repeat match goal with H : ?w <> "" |- _ => apply String.eqb_neq in H end.
  all: repeat (match goal with H : (?w =? "")%string = false |- context [String.eqb ?w ""] =>
                 rewrite H end; cbn [negb andb orb truthy str_or]).
  all: cbn [truthy negb orb].
  all: repeat (match goal with H : (?w =? "")%string = false |- context [String.eqb ?w ""] =>
                 rewrite H end; cbn [negb andb orb truthy str_or]).
  all: split; [split; [discriminate|discriminate]|].
  all: intros a Ha; injection Ha as <-.
  all: destruct lang; cbn.
  all: repeat (match goal with H : (?w =? "")%string = false |- context [String.eqb ?w ""] =>
                 rewrite H end; cbn [negb andb orb truthy str_or]).
  all: repeat split; reflexivity.
Qed.

Lemma dict_get_set_other k k' v a : k <> k' -> dict_get k (dict_set k' v a) = dict_get k a.
Proof.
  intros Hk. apply String.eqb_neq in Hk.
  induction a as [|[k2 v2] a IH]; simpl; [rewrite Hk; reflexivity|].
  destruct (String.eqb k' k2) eqn:H2; simpl.
  - apply String.eqb_eq in H2. subst k2. rewrite Hk. reflexivity.
  - destruct (String.eqb k k2); [reflexivity|exact IH].
Qed.

Lemma text_set_fold attrs : forall e,
  text (fold_left (fun x '(k, w) => set k w x) attrs e) = text e.
Proof. induction attrs as [|[k w] attrs IH]; intros e; simpl; [reflexivity|]. rewrite IH. destruct e; reflexivity. Qed.

Lemma get_set_fold_out k attrs : ~ In k (map fst attrs) -> forall e,
  get k (fold_left (fun x '(k, w) => set k w x) attrs e) = get k e.
Proof.
  induction attrs as [|[k' w] attrs IH]; intros Hn e; simpl; [reflexivity|].
  simpl in Hn. rewrite IH by tauto. unfold get, set. destruct e. cbn [attrib set_attrib].
  apply dict_get_set_other. intros ->. tauto.
Qed.

Lemma get_set_fold_in k w attrs : NoDup (map fst attrs) -> In (k, w) attrs -> forall e,
  get k (fold_left (fun x '(k, w) => set k w x) attrs e) = Some w.
Proof.
  induction attrs as [|[k' w'] attrs IH]; intros Hd Hi e; simpl; [contradiction|].
  simpl in Hd. inversion Hd as [|? ? Hn Hd']; subst.
  destruct Hi as [Hi|Hi].
  - injection Hi as -> ->. rewrite get_set_fold_out by exact Hn.
    unfold get, set. destruct e. apply dict_get_set.
  - apply IH; assumption.
Qed.

(** [modify_element(path, value, attribs, clear_attribs)] leaves an element
    at [path] whose text is [value] (also when empty) and which carries each
    of [attribs]; with [clear_attribs] it carries no other attribute. *)
Theorem modify_element_result (path : list string) (v : string) (attrs : list (string * string))
  (ca : bool) (r r' : element) :
  path <> [] -> NoDup (map fst attrs) -> modify_element path v attrs ca r = Ok r' ->
  exists e, find_el path r' = Some e /\ text e = Some v /\
    (forall k w, In (k, w) attrs -> get k e = Some w) /\
    (ca = true -> forall k, ~ In k (map fst attrs) -> get k e = None).
Proof.
  intros Hp Hd H. destruct (modify_element_spec _ _ _ _ _ _ Hp H) as (q & e0 & Hq & He).
  exists (edited v attrs ca e0). split; [unfold find_el; rewrite Hq; exact He|].
  unfold edited. split; [rewrite text_set_fold; destruct ca, e0; reflexivity|].
  split.
  - intros k w Hi. apply get_set_fold_in; assumption.
  - intros -> k Hk. rewrite get_set_fold_out by exact Hk. destruct e0; reflexivity.
Qed.

Lemma find_upd_keep P q f r :
  find P r = Some q -> (forall x, tag (f x) = tag x) -> find P (upd_at q f r) = Some q.
Proof.
  intros H Hf. unfold find. rewrite findall_upd_at; [exact H|exact Hf|].
  rewrite (length_find _ _ _ H). reflexivity.
Qed.

Lemma upd_keep P q f r e :
  find P r = Some q -> get_at r q = Some e -> (forall x, tag (f x) = tag x) ->
  find P (upd_at q f r) = Some q /\ get_at (upd_at q f r) q = Some (f e).
Proof.
  intros H He Hf. split; [apply find_upd_keep; assumption|].
  rewrite get_at_upd_at, He. reflexivity.
Qed.

Lemma add_elements_at P q sub (l : list string) : forall r e,
  find P r = Some q -> get_at r q = Some e ->
  find P (fold_left (fun r x => add_element q sub x [] r) l r) = Some q /\
  get_at (fold_left (fun r x => add_element q sub x [] r) l r) q =
    Some (set_kids (kids e ++ map (fun x => new_element sub x []) l)%list e).
Proof.
  induction l as [|x l IH]; intros r e H He; cbn [fold_left map].
  - rewrite app_nil_r. split; [exact H|]. rewrite He. destruct e; reflexivity.
  - destruct (upd_keep P q (append (new_element sub x [])) r e H He (tag_append _)) as [H1 H2].
    destruct (IH (add_element q sub x [] r) (append (new_element sub x []) e) H1 H2) as [H3 H4].
    split; [exact H3|]. rewrite H4.
    destruct e; cbn. rewrite <- app_assoc. reflexivity.
Qed.

Lemma get_at_find P r q : find P r = Some q -> exists e, get_at r q = Some e.
Proof. intros H. apply find_in, findall_valid in H. tauto. Qed.



Lemma drop_scan_marker si : drop 6 (scan_marker ++ si) = si.
Proof.
  unfold drop. rewrite str_length_app.
  replace (String.length scan_marker + String.length si - 6) with (String.length si) by (cbn; lia).
  exact (substring_app_r scan_marker si).
Qed.

Lemma scan_marked_new si : scan_marked (new_element "p" (scan_marker ++ si) []) = true.
Proof. cbn. rewrite prefix_nil. reflexivity. Qed.

(** The scan information is written as a marked [p] appended last under
    [meta-data/document-info/source]; when that [source] is the first in
    the document, the extraction reads the same scan information back,
    whatever marked paragraphs the old removal loop left in place. *)
Theorem scan_round_trip (md : metadata) (r r' : element) (si : string) :
  scan_info md = Some si -> si <> "" -> step_scan md r = Ok r' ->
  exists s, find_el ["meta-data"; "document-info"; "source"] r' = Some s /\
    last (kids s) s = new_element "p" (scan_marker ++ si) [] /\
    (find_desc "source" r' = Some s -> read_scan_info r' = Some si).
Proof.
  intros Hs Hne H. unfold step_scan in H. rewrite Hs in H.
  apply String.eqb_neq in Hne. cbn [truthy] in H. rewrite Hne in H. cbn [negb] in H.
  destruct (get_or_create _ r) as [[r1 q]|m] eqn:Hg; cbn [bind] in H; [|discriminate].
  injection H as <-. apply get_or_create_find in Hg.
  change (String "[" (String "S" (String "c" (String "a" (String "n" (String "]" si))))))
    with (scan_marker ++ si).
  destruct (get_at_find _ _ _ Hg) as [e He].
  destruct (upd_keep _ q (fun e => set_kids (scan_remove (kids e)) e) r1 e Hg He) as [H1 H2];
    [intros [? ? ? ?]; reflexivity|].
  destruct (upd_keep _ q (append (new_element "p" (scan_marker ++ si) [])) _ _ H1 H2 (tag_append _))
    as [H3 H4].
  eexists. split; [unfold find_el; unfold add_element; rewrite H3; exact H4|].
  destruct e as [t a x k]. cbn [kids set_kids append].
  split; [apply last_last|].
  intros Hd. rewrite (read_scan_info_last _ _ Hd).
  - cbn [kids]. rewrite filter_app. cbn [filter]. rewrite scan_marked_new, last_last.
    replace (text (new_element "p" (scan_marker ++ si) [])) with (Some (scan_marker ++ si)) by reflexivity.
    cbn [str_or]. rewrite drop_scan_marker. reflexivity.
  - cbn [kids]. rewrite filter_app. cbn [filter]. rewrite scan_marked_new.
    intros Hn. apply app_eq_nil in Hn as [_ Hn]. discriminate.
Qed.

Lemma fold_left_map_arg {A B C} (h : A -> C -> A) (k : B -> C) l : forall a,
  fold_left (fun r c => h r (k c)) l a = fold_left h (map k l) a.
Proof. induction l as [|x l IH]; intros a; simpl; auto. Qed.

(** A non-empty list of characters, teams or locations replaces the
    content of the first [book-info] container of that name: the
    container keeps no attribute and no text, and holds one [name] per item
    in order, with no text for an empty or missing item. *)
Theorem container_written (items : list (option string)) (name : string) (r r' : element) :
  items <> [] -> step_container items name r = Ok r' ->
  exists c, find_el (bi_child name) r' = Some c /\ attrib c = [] /\ text c = None /\
    map tag (kids c) = map (fun _ => "name") items /\
    map text (kids c) = map (fun o => match o with
                                      | Some s => if String.eqb s "" then None else Some s
                                      | None => None end) items.
Proof.
  intros Hne H. unfold step_container in H. destruct items as [|i0 items]; [congruence|].
  destruct (get_or_create _ r) as [[r1 q]|m] eqn:Hg; cbn [bind] in H; [|discriminate].
  injection H as <-. apply get_or_create_find in Hg.
  destruct (get_at_find _ _ _ Hg) as [e He].
  destruct (upd_keep _ q clear r1 e Hg He) as [H1 H2]; [intros [? ? ? ?]; reflexivity|].
  rewrite (fold_left_map_arg (fun r s => add_element q "name" s [] r) (fun c => str_or c "")).
  destruct (add_elements_at _ _ "name" (map (fun c => str_or c "") (i0 :: items)) _ _ H1 H2)
    as [H3 H4].
  cbn [map fold_left] in H3, H4.
  eexists. split; [unfold find_el; rewrite H3; exact H4|].
  destruct e as [t a x k]. cbn [clear kids set_kids app attrib text].
  split; [reflexivity|]. split; [reflexivity|]. cbn [map]. rewrite !map_map.
  split; f_equal; try (apply map_ext; intros [s|]; reflexivity); destruct i0; reflexivity.
Qed.

Lemma fold_res_raise {A B} (f : A -> B -> res A) (msg : string) l x0 :
  (forall a x m, f a x = Raise m -> m = msg) -> In x0 l ->
  (forall a, exists m, f a x0 = Raise m) -> forall a, fold_res f l a = Raise msg.
Proof.
  intros Hm Hin Hx. induction l as [|x l IH]; [contradiction|]. intros a. cbn [fold_res].
  destruct (f a x) as [a'|m] eqn:Hf; cbn [bind].
  - destruct Hin as [<-|Hin]; [destruct (Hx a) as [m Hm']; congruence|]. apply IH, Hin.
  - f_equal. exact (Hm _ _ _ Hf).
Qed.

Lemma in_set_add x y l : In y l -> In y (set_add x l).
Proof. unfold set_add. destruct (mem x l); [auto|]. intros H. apply in_or_app. auto. Qed.

Lemma old_match_raise E cur g m : old_match E cur g = Raise m -> m = "ValueError: invalid literal for int()".
Proof.
  unfold old_match. destruct (List.find _ cur) as [cg|]; [|discriminate].
  destruct (get "match" cg) as [s|]; [|discriminate].
  destruct (truthy (Some s)); [|discriminate].
  destruct (py_int E s); [discriminate|]. intros H; injection H as <-; reflexivity.
Qed.

(** When a genre of the record is one ACBF allows and the first old [genre]
    element with that text has a [match] attribute that is not an integer,
    the merge raises [ValueError]. *)
Theorem genre_bad_match_raises (E : env) (md : metadata) (bi : pos) (r cg : element)
  (g s : string) :
  In g (genres md) -> mem (genre_key g) allow_genres = true ->
  List.find (fun c => opt_eqb (text c) (Some (genre_key g))) (findall_el (bi_child "genre") r) = Some cg ->
  get "match" cg = Some s -> s <> "" -> py_int E s = None ->
  step_genres E md bi r = Raise "ValueError: invalid literal for int()".
Proof.
  intros Hg Ha Hf Hm Hs Hp. unfold step_genres.
  erewrite fold_res_raise; [reflexivity| | |].
  - intros a x m. destruct (mem (genre_key x) allow_genres); [|discriminate].
    destruct (old_match E _ _) eqn:Ho; cbn [bind]; [destruct (0 <? _)%Z; discriminate|].
    intros H; injection H as <-. exact (old_match_raise _ _ _ _ Ho).
  - destruct (manga md) as [mg|]; [destruct (startswith (casefold mg) "yes")|]; try exact Hg.
    destruct md; cbn in *. apply in_set_add, Hg.
  - intros a. rewrite Ha. exists "ValueError: invalid literal for int()".
    unfold old_match. rewrite Hf, Hm. apply String.eqb_neq in Hs. cbn [truthy]. rewrite Hs.
    cbn [negb]. rewrite Hp. reflexivity.
Qed.

Lemma modify_element_result_witness :
  exists r', modify_element (pi_child "isbn") "978" [("lang", "en")] true one_sequence_tree = Ok r' /\
    exists e, find_el (pi_child "isbn") r' = Some e /\ text e = Some "978".
Proof.
  destruct (modify_element (pi_child "isbn") "978" [("lang", "en")] true one_sequence_tree)
    as [r'|msg] eqn:H; [|vm_compute in H; discriminate H].
  exists r'. split; [reflexivity|].
  destruct (modify_element_result (pi_child "isbn") "978" [("lang", "en")] true one_sequence_tree r')
    as [e [He [Ht _]]]; [discriminate|repeat constructor; simpl; tauto|exact H|].
  exists e. split; assumption.
Defined.


Lemma scan_round_trip_witness :
  exists r', step_scan md_scan two_scans_tree = Ok r' /\ read_scan_info r' = Some "team".
Proof.
  destruct (step_scan md_scan two_scans_tree) as [r'|msg] eqn:H;
    [|vm_compute in H; discriminate H].
  exists r'. split; [reflexivity|].
  destruct (scan_round_trip md_scan two_scans_tree r' "team") as [s [Hs [_ Hr]]];
    [reflexivity|discriminate|exact H|].
  apply Hr. revert Hs. vm_compute in H. injection H as <-. vm_compute. exact (fun x => x).
Defined.

Lemma container_written_witness :
  exists r', step_container [Some "Bob"; None] "characters" one_sequence_tree = Ok r' /\
    exists c, find_el (bi_child "characters") r' = Some c /\
      map text (kids c) = [Some "Bob"; None].
Proof.
  destruct (step_container [Some "Bob"; None] "characters" one_sequence_tree)
    as [r'|msg] eqn:H; [|vm_compute in H; discriminate H].
  exists r'. split; [reflexivity|].
  destruct (container_written [Some "Bob"; None] "characters" one_sequence_tree r')
    as [c [Hc [_ [_ [_ Ht]]]]]; [discriminate|exact H|].
  exists c. split; [exact Hc|]. rewrite Ht. reflexivity.
Defined.

Lemma genre_bad_match_raises_witness :
  step_genres env0 (with_genres ["Horror"] empty_md) [0; 0] bad_match_tree
  = Raise "ValueError: invalid literal for int()".
Proof.
  apply (genre_bad_match_raises env0 (with_genres ["Horror"] empty_md) [0; 0] bad_match_tree
           (Elem "genre" [("match", "x")] (Some "horror") []) "Horror" "x");
    [left; reflexivity|reflexivity|reflexivity|reflexivity|discriminate|reflexivity].
Defined.

Lemma nth_error_upd_nth_other {A} (g : A -> A) l : forall i j,
  i <> j -> nth_error (upd_nth i g l) j = nth_error l j.
Proof.
  induction l as [|x l IH]; intros [|i] [|j] H; simpl; auto; try congruence.
Qed.

Lemma kids_set_kids l e : kids (set_kids l e) = l.
Proof. destruct e; reflexivity. Qed.

Lemma set_kids_set_kids l l' e : set_kids l (set_kids l' e) = set_kids l e.
Proof. destruct e; reflexivity. Qed.

Lemma get_at_upd_child g (p : pos) : forall j r,
  get_at (upd_at (p ++ [j])%list g r) p =
  option_map (fun b => set_kids (upd_nth j g (kids b)) b) (get_at r p).
Proof.
  induction p as [|i p IH]; intros j r; [reflexivity|].
  cbn [app upd_at get_at]. rewrite kids_set_kids.
  destruct (Nat.eq_dec i i) as [_|]; [|congruence].
  rewrite nth_error_upd_nth. destruct (nth_error (kids r) i); simpl; auto.
Qed.

Lemma get_at_upd_apart g (p : pos) : forall q r,
  length p < length q -> firstn (length p) q <> p ->
  get_at (upd_at q g r) p = get_at r p.
Proof.
  induction p as [|i p IH]; intros q r Hl Hf; [simpl in Hf; congruence|].
  destruct q as [|i' q]; simpl in Hl; [lia|].
  cbn [upd_at get_at]. rewrite kids_set_kids.
  destruct (Nat.eq_dec i' i) as [<-|Hne].
  - rewrite nth_error_upd_nth. destruct (nth_error (kids r) i') as [c|]; simpl; auto.
    apply IH; [simpl in Hl; lia|]. intros He. apply Hf. simpl. rewrite He. reflexivity.
  - rewrite nth_error_upd_nth_other by auto. reflexivity.
Qed.

Lemma snoc_firstn (p : pos) : forall q,
  length q = S (length p) -> firstn (length p) q = p -> q = (p ++ [nth (length p) q 0])%list.
Proof.
  induction p as [|i p IH]; intros [|x q] Hl Hf; simpl in *; try discriminate.
  - destruct q; [reflexivity|discriminate].
  - injection Hf as -> Hf. f_equal. apply IH; auto.
Qed.

Lemma get_at_fold_upd g (p : pos) : forall qs r,
  Forall (fun q => length q = S (length p)) qs ->
  get_at (fold_left (fun r q => upd_at q g r) qs r) p =
  option_map (fun b => set_kids (fold_left (fun ks j => upd_nth j g ks)
                                           (children_below p qs) (kids b)) b)
             (get_at r p).
Proof.
  induction qs as [|q qs IH]; intros r Hq.
  - simpl. destruct (get_at r p) as [[]|]; reflexivity.
  - inversion Hq as [|? ? Hl Hqs]; subst. cbn [fold_left]. rewrite IH by exact Hqs.
    unfold children_below at 2. cbn [flat_map].
    destruct (list_eq_dec Nat.eq_dec (firstn (length p) q) p) as [Hf|Hf].
    + assert (Hqe : q = (p ++ [nth (length p) q 0])%list) by (apply snoc_firstn; auto).
      rewrite Hqe at 1. rewrite get_at_upd_child.
      destruct (get_at r p) as [b|]; simpl; auto.
      rewrite kids_set_kids, set_kids_set_kids. reflexivity.
    + rewrite get_at_upd_apart by (auto; lia). reflexivity.
Qed.

Lemma title_reset_idem e : title_reset (title_reset e) = title_reset e.
Proof.
  unfold title_reset at 2 3. destruct (get "lang" e) as [l|] eqn:H.
  - destruct (String.eqb l "en") eqn:He.
    + destruct e; reflexivity.
    + unfold title_reset. rewrite H, He. reflexivity.
  - destruct e; reflexivity.
Qed.

Lemma nth_fold_upd (g : element -> element) (Hg : forall e, g (g e) = g e) :
  forall js ks j,
  nth_error (fold_left (fun ks j => upd_nth j g ks) js ks) j =
  option_map (fun e => if in_dec Nat.eq_dec j js then g e else e) (nth_error ks j).
Proof.
  induction js as [|j' js IH]; intros ks j; simpl.
  - destruct (nth_error ks j); reflexivity.
  - rewrite IH. destruct (Nat.eq_dec j' j) as [<-|Hne].
    + rewrite nth_error_upd_nth. destruct (nth_error ks j'); simpl; auto.
      destruct (in_dec Nat.eq_dec j' (j' :: js)) as [_|Hn]; [|simpl in Hn; tauto].
      destruct (in_dec Nat.eq_dec j' js); rewrite ?Hg; reflexivity.
    + rewrite nth_error_upd_nth_other by auto. destruct (nth_error ks j); simpl; auto.
      destruct (in_dec Nat.eq_dec j js), (in_dec Nat.eq_dec j (j' :: js)); auto;
        simpl in *; tauto.
Qed.

Lemma tag_title_reset e : tag (title_reset e) = tag e.
Proof.
  unfold title_reset. destruct (get "lang" e) as [l|]; [destruct (String.eqb l "en")|];
    destruct e; reflexivity.
Qed.

Lemma findall_fold_upd P g : (forall x, tag (g x) = tag x) -> forall qs r,
  Forall (fun q => length P <= length q) qs ->
  findall P (fold_left (fun r q => upd_at q g r) qs r) = findall P r.
Proof.
  intros Hg qs. induction qs as [|q qs IH]; intros r Hq; simpl; [reflexivity|].
  inversion Hq; subst. rewrite IH by assumption. apply findall_upd_at; assumption.
Qed.

Lemma in_children_below (t : string) (r b : element) (bi : pos) (j : nat) (c : element) :
  In bi (findall bi_path r) -> get_at r bi = Some b -> nth_error (kids b) j = Some c ->
  (In j (children_below bi (findall (bi_child t) r)) <-> tag c = t).
Proof.
  intros Hbi Hb Hc.
  assert (Hlb : length bi = 2) by (apply findall_valid in Hbi; apply Hbi).
  unfold children_below. change (bi_child t) with (bi_path ++ [t])%list.
  rewrite findall_snoc, flat_map_flat_map. rewrite in_flat_map. split.
  - intros [p' [Hp' Hj]]. apply in_flat_map in Hj as [q [Hq Hj]].
    assert (Hlp : length p' = 2) by (apply findall_valid in Hp'; apply Hp').
    unfold below in Hq. destruct (get_at r p') as [e|] eqn:He; [|contradiction].
    apply in_map_iff in Hq as [q' [<- Hq']].
    cbn [findall] in Hq'. apply in_flat_map in Hq' as [[i c'] [Hi Hq']].
    apply in_indexed in Hi as [_ Hi]. rewrite Nat.sub_0_r in Hi.
    destruct (String.eqb_spec (tag c') t) as [Ht|]; [|contradiction].
    simpl in Hq'. destruct Hq' as [<-|[]].
    rewrite Hlb, <- Hlp in Hj.
    rewrite firstn_app, Nat.sub_diag, firstn_all, app_nil_r in Hj. cbn [firstn] in Hj.
    destruct (list_eq_dec Nat.eq_dec p' bi) as [->|]; [|contradiction].
    rewrite app_nth2, Nat.sub_diag in Hj by lia. simpl in Hj. destruct Hj as [<-|[]].
    rewrite Hb in He. injection He as ->. rewrite Hc in Hi. injection Hi as ->. exact Ht.
  - intros Ht. exists bi. split; [exact Hbi|]. apply in_flat_map.
    exists (bi ++ [j])%list. split.
    + unfold below. rewrite Hb. apply in_map. cbn [findall].
      apply in_flat_map. exists (j, c). split.
      * apply (indexed_in (kids b) 0 j c Hc).
      * rewrite Ht, String.eqb_refl. simpl. auto.
    + rewrite firstn_app, Nat.sub_diag, firstn_all. cbn [firstn].
      rewrite ?app_nil_r. destruct (list_eq_dec Nat.eq_dec bi bi) as [_|]; [|congruence].
      rewrite app_nth2, Nat.sub_diag by lia. simpl. auto.
Qed.

Lemma find_reset_titles (l : list element) :
  existsb (fun c => String.eqb (tag c) "book-title" && lang_ok c) l = true ->
  exists c', List.find lang_ok
    (filter (fun c => String.eqb (tag c) "book-title")
            (map (fun c => if String.eqb (tag c) "book-title" then title_reset c else c) l))
    = Some c' /\ text c' = None.
Proof.
  induction l as [|a l IH]; simpl; [discriminate|]. intros H.
  destruct (String.eqb (tag a) "book-title") eqn:Ht; simpl in H.
  - rewrite tag_title_reset, Ht. cbn [List.find].
    unfold lang_ok at 1 in H. unfold title_reset.
    destruct (get "lang" a) as [l0|] eqn:Hl.
    + destruct (String.eqb l0 "en") eqn:He.
      * exists (clear a). destruct a; split; reflexivity.
      * unfold lang_ok at 1. rewrite Hl, He. simpl in H. exact (IH H).
    + exists (clear a). destruct a; split; reflexivity.
  - rewrite Ht. exact (IH H).
Qed.

Lemma find_app_some {A} (p : A -> bool) l1 l2 x :
  List.find p l1 = Some x -> List.find p (l1 ++ l2)%list = Some x.
Proof. induction l1 as [|a l1 IH]; simpl; [discriminate|]. destruct (p a); auto. Qed.

(** Rewriting the title of a document whose first [book-info] already has
    a [book-title] with no language or in English: every old [book-title]
    with no language or in English is cleared in place ([title.clear()]:
    no attributes, no text, no children), the others are kept, and the new
    title is appended after all of them; [get_with_lang] then stops at the
    first cleared title, so the title reads back as missing. *)
Theorem title_rewrite_hidden (md : metadata) (t : string) (bi : pos) (r b : element) :
  title md = Some t -> t <> "" -> find bi_path r = Some bi -> get_at r bi = Some b ->
  existsb (fun c => String.eqb (tag c) "book-title" && lang_ok c) (kids b) = true ->
  exists b', find_el bi_path (step_title md bi r) = Some b' /\
    b' = set_kids (map (fun c => if String.eqb (tag c) "book-title" then title_reset c else c)
                       (kids b) ++
                   [Elem "book-title"
                      (match language md with
                       | Some l => if truthy (language md) then [("lang", l)] else []
                       | None => [] end) (Some t) []])%list b /\
    get_with_lang b' "book-title" = None.
Proof.
  intros Ht Hne Hf Hb Hex.
  assert (Hbi : In bi (findall bi_path r)) by (apply find_in; exact Hf).
  assert (Hlb : length bi = 2) by (apply findall_valid in Hbi; apply Hbi).
  assert (Hq : Forall (fun q => length q = 3) (findall (bi_child "book-title") r)).
  { apply Forall_forall. intros q Hq. apply findall_valid in Hq. apply Hq. }
  unfold step_title. rewrite Ht.
  replace (truthy (Some t)) with true
    by (simpl; destruct (String.eqb_spec t ""); [contradiction|reflexivity]).
  change (fun r0 q => upd_at q (fun e => match get "lang" e with
                                        | Some l => if String.eqb l "en" then clear e else e
                                        | None => clear e end) r0)
    with (fun r0 q => upd_at q title_reset r0).
  set (qs := findall (bi_child "book-title") r) in *.
  set (r1 := fold_left (fun r0 q => upd_at q title_reset r0) qs r).
  set (e := Elem "book-title" _ (Some t) []).
  set (js := children_below bi qs).
  set (K := fold_left (fun ks j => upd_nth j title_reset ks) js (kids b)).
  assert (Hfind : find bi_path (upd_at bi (append e) r1) = Some bi).
  { unfold find. rewrite findall_upd_at
      by first [intros; apply tag_append | rewrite Hlb; simpl; lia].
    unfold r1. rewrite findall_fold_upd
      by first [exact tag_title_reset | eapply Forall_impl; [|exact Hq]; simpl; intros; lia].
    exact Hf. }
  assert (Hg : get_at r1 bi = Some (set_kids K b)).
  { unfold r1. rewrite get_at_fold_upd, Hb by
      (eapply Forall_impl; [|exact Hq]; simpl; intros; lia). reflexivity. }
  assert (HK : K = map (fun c => if String.eqb (tag c) "book-title" then title_reset c else c)
                       (kids b)).
  { apply nth_error_ext. intros j. unfold K.
    rewrite nth_fold_upd by exact title_reset_idem. rewrite nth_error_map.
    destruct (nth_error (kids b) j) as [c|] eqn:Hc; simpl; [|reflexivity].
    pose proof (in_children_below "book-title" r b bi j c Hbi Hb Hc) as Hiff.
    fold qs js in Hiff.
    destruct (in_dec Nat.eq_dec j js) as [Hj|Hj];
      destruct (String.eqb_spec (tag c) "book-title") as [Htc|Htc]; try reflexivity;
      exfalso; tauto. }
  exists (append e (set_kids K b)). split; [|split].
  - unfold find_el. rewrite Hfind, get_at_upd_at, Hg. reflexivity.
  - unfold append. rewrite kids_set_kids, set_kids_set_kids, HK. reflexivity.
  - unfold get_with_lang, kids_named, append. rewrite !kids_set_kids, filter_app.
    destruct (find_reset_titles (kids b) Hex) as [c' [Hc' Htc']].
    rewrite <- HK in Hc'.
    destruct (filter (fun c => String.eqb (tag c) "book-title") K ++ _)%list eqn:Hl.
    + apply (f_equal (@length element)) in Hl. rewrite length_app in Hl. simpl in Hl. lia.
    + rewrite <- Hl. change (fun t0 => match get "lang" t0 with
                                      | Some l => String.eqb l "en"
                                      | None => true end) with lang_ok.
      rewrite (find_app_some _ _ _ _ Hc'). exact Htc'.
Qed.

Lemma title_rewrite_hidden_witness :
  exists b', find_el bi_path (step_title md_title [0; 0] untagged_title_tree) = Some b' /\
    get_with_lang b' "book-title" = None.
Proof.
  destruct (title_rewrite_hidden md_title "New" [0; 0] untagged_title_tree
              (book_info_titles [title_el None "Old"])) as [b' [H1 [_ H2]]];
    [reflexivity|discriminate|reflexivity|reflexivity|reflexivity|].
  exists b'. split; assumption.
Defined.

